(** * build-runner: the task runner of [runner/__init__.py]

    A verification development for the scheduling core of build-runner:
    the process supervisor [run_task], the retry/halt engine
    [process_taskdir] and the iteration driver [runner].

    External processes, the wall clock and the file system are outside the
    program.  They are represented by an explicit machine description (how
    long each spawned process lives, which status it leaves, how late each
    sleep wakes up) and by explicit state passing. *)

From Stdlib Require Import List String Ascii Bool ZArith QArith Qround Lia Lqa.
Import ListNotations.
Local Open Scope Z_scope.

(** ** Values shared by all components *)

(** The three strings returned by [run_task]. *)
Inductive Outcome : Type := OK | RETRY | HALT.

(** Python truthiness of a value that is either [None] or a string. *)
Definition truthy (v : option string) : bool :=
  match v with
  | None => false
  | Some s => negb (String.eqb s EmptyString)
  end.

(** What [json.dumps(task_stats)] serialises: the dict built at line 91,
    with the ["result"] key added at line 108 for the post-task hook. *)
Record TaskStats : Type := mkStats {
  st_task : string;
  st_try_num : Z;
  st_max_retries : Z;
  st_result : option Outcome
}.

(** The single-quoted argument of a formatted command line. *)
Inductive Quoted : Type :=
| QPath (p : string)
| QJson (j : TaskStats).

(** What is handed to [subprocess.Popen]: a bare path, or the words obtained
    by [shlex.split("{} '{}'".format(prefix, arg))].  The splitting itself is
    left symbolic: the command keeps the two pieces the line was built
    from. *)
Inductive Cmd : Type :=
| Direct (path : string)
| Split (prefix : string) (arg : Quoted).

Definition Environ : Type := list (string * string).

(** [dict.update]: entries of [new] replace entries of [old] with the same
    key, other entries are kept. *)
Definition env_update (old new : Environ) : Environ :=
  new ++ filter (fun kv => negb (existsb (fun kv' => String.eqb (fst kv) (fst kv')) new)) old.

(** ** Strings: [os.path.join], [str.split(',')], [str.strip] *)

Definition starts_with_slash (s : string) : bool :=
  match s with
  | String c _ => Ascii.eqb c "/"%char
  | EmptyString => false
  end.

Fixpoint ends_with_slash (s : string) : bool :=
  match s with
  | EmptyString => false
  | String c EmptyString => Ascii.eqb c "/"%char
  | String _ rest => ends_with_slash rest
  end.

(** [posixpath.join(a, b)]. *)
Definition path_join (a b : string) : string :=
  if starts_with_slash b then b
  else if (String.eqb a EmptyString || ends_with_slash a)%bool then (a ++ b)%string
  else (a ++ "/" ++ b)%string.

(** [s.split(',')]: never empty, the last field may be the empty string. *)
Fixpoint split_commas (s : string) : list string :=
  match s with
  | EmptyString => [EmptyString]
  | String c rest =>
      if Ascii.eqb c ","%char then EmptyString :: split_commas rest
      else match split_commas rest with
           | [] => [String c EmptyString]
           | w :: ws => String c w :: ws
           end
  end.

Definition is_space (c : ascii) : bool :=
  let n := nat_of_ascii c in
  (Nat.eqb n 32 || (Nat.leb 9 n && Nat.leb n 13))%bool.

Fixpoint lstrip (s : string) : string :=
  match s with
  | String c rest => if is_space c then lstrip rest else s
  | EmptyString => EmptyString
  end.

Fixpoint rstrip (s : string) : string :=
  match s with
  | EmptyString => EmptyString
  | String c rest =>
      match rstrip rest with
      | EmptyString => if is_space c then EmptyString else String c EmptyString
      | r => String c r
      end
  end.

Definition strip (s : string) : string := rstrip (lstrip s).

(** ** The process supervisor: [run_task] (lines 19-44) *)

Module Supervisor.

(** One external process.  [lifetime] is the wall time, in seconds, between
    spawn and exit; [None] is a process that never exits by itself.
    [status] is what [proc.wait()] returns once it has exited. *)
Record Proc : Type := mkProc {
  lifetime : option Q;
  status : Z
}.

(** The machine outside the program: the behaviour of the [n]-th spawned
    process, and by how much the [k]-th call of [time.sleep] oversleeps. *)
Record Machine : Type := mkMachine {
  procs : nat -> Cmd -> Environ -> Proc;
  lag : nat -> Q
}.

Inductive SysEvent : Type :=
| Spawn (pid : nat) (c : Cmd)
| Nap (secs : Z)
| Terminate (pid : nat)
| Reap (pid : nat) (rv : Z).

(** The state of the host: [time.time()], how many processes were spawned,
    how many sleeps were taken, and the system calls made so far (oldest
    first). *)
Record Host : Type := mkHost {
  clock : Q;
  spawned : nat;
  naps : nat;
  syslog : list SysEvent
}.

Definition emit (e : SysEvent) (h : Host) : Host :=
  mkHost (clock h) (spawned h) (naps h) (syslog h ++ [e]).

(** [time.sleep(secs)]: the clock advances by [secs] plus the lag of this
    sleep.  A negative argument raises. *)
Definition nap (m : Machine) (secs : Z) (h : Host) : Host :=
  mkHost (clock h + inject_Z secs + lag m (naps h)) (spawned h) (S (naps h))
         (syslog h ++ [Nap secs]).

Definition sleep (m : Machine) (secs : Z) (h : Host) : option Host :=
  if secs <? 0 then None else Some (nap m secs h).

(** [proc.poll()] at wall time [now] for a process started at [start]. *)
Definition poll (p : Proc) (start now : Q) : option Z :=
  match lifetime p with
  | Some d => if Qle_bool (start + d) now then Some (status p) else None
  | None => None
  end.

(** Lines 39-44. *)
Definition classify (rv : Z) : Outcome :=
  if rv =? 0 then OK
  else if rv =? 2 then HALT
  else RETRY.

(** The [while True] loop of lines 22-36 followed by lines 38-44.  Each unit
    of [fuel] is one turn of the loop; [None] means the loop is still turning
    when the fuel is spent. *)
Fixpoint supervise_loop (fuel : nat) (m : Machine) (p : Proc) (pid : nat)
         (start : Q) (max_time : Z) (h : Host) : option (Outcome * Host) :=
  match fuel with
  | O => None
  | S fuel' =>
      match poll p start (clock h) with
      | Some rv => Some (classify rv, emit (Reap pid rv) h)
      | None =>
          if max_time =? 0 then
            supervise_loop fuel' m p pid start max_time (nap m 20 h)
          else if Qlt_le_dec (inject_Z max_time) (clock h - start) then
            Some (RETRY, emit (Terminate pid) h)
          else
            supervise_loop fuel' m p pid start max_time (nap m 1 h)
      end
  end.

Definition run_task (fuel : nat) (m : Machine) (t : Cmd) (env : Environ)
           (max_time : Z) (h : Host) : option (Outcome * Host) :=
  let start := clock h in
  let pid := spawned h in
  let p := procs m pid t env in
  let h1 := mkHost (clock h) (S (spawned h)) (naps h) (syslog h ++ [Spawn pid t]) in
  supervise_loop fuel m p pid start max_time h1.

End Supervisor.

(** ** The configuration collaborator ([lib.config], not part of the core) *)

(** [config.get_task_config(t)] restricted to the four keys of
    [default_config] (line 83); a key that is absent is [None]. *)
Record Overrides : Type := mkOverrides {
  o_max_time : option Z;
  o_max_tries : option Z;
  o_sleep_time : option Z;
  o_interpreter : option (option string)
}.

Definition no_overrides : Overrides := mkOverrides None None None None.

(** Modelled from the spec: the [Config] object of [lib.config], which is not
    among the sources.  Its attributes are the global scalar settings of the
    Run Configuration; [get] is the per-section key lookup, [get_env] the
    environment overlay and [get_task_config] the per-task subset. *)
Record Config : Type := mkConfig {
  max_time : Z;
  max_tries : Z;
  sleep_time : Z;
  interpreter : option string;
  halt_task : string;
  pre_task_hook : option string;
  post_task_hook : option string;
  get : string -> string -> option string;
  get_env : Environ;
  get_task_config : string -> Overrides
}.

(** The merged [task_config] dict after the loop of lines 86-88. *)
Record TaskSettings : Type := mkSettings {
  ts_max_time : Z;
  ts_max_tries : Z;
  ts_sleep_time : Z;
  ts_interpreter : option string
}.

Definition or_default {A : Type} (override : option A) (default : A) : A :=
  match override with
  | Some v => v
  | None => default
  end.

(** Lines 72-77 and 82-88. *)
Definition task_settings (config : Config) (t : string) : TaskSettings :=
  let task_config := get_task_config config t in
  mkSettings (or_default (o_max_time task_config) (max_time config))
             (or_default (o_max_tries task_config) (max_tries config))
             (or_default (o_sleep_time task_config) (sleep_time config))
             (or_default (o_interpreter task_config) (interpreter config)).

(** ** The dependency resolver ([lib.graph], not part of the core) *)

Record TaskConfig : Type := mkTaskConfig {
  tc_name : string;
  tc_deps : list string
}.

Definition mem (x : string) (l : list string) : bool := existsb (String.eqb x) l.

Definition ready (placed : list string) (tc : TaskConfig) : bool :=
  forallb (fun d => mem d placed) (tc_deps tc).

(** The first task, in discovery order, whose dependencies are all placed,
    together with the tasks that stay pending. *)
Fixpoint pick_ready (placed : list string) (pending : list TaskConfig)
  : option (TaskConfig * list TaskConfig) :=
  match pending with
  | [] => None
  | tc :: rest =>
      if ready placed tc then Some (tc, rest)
      else match pick_ready placed rest with
           | Some (found, rest') => Some (found, tc :: rest')
           | None => None
           end
  end.

Fixpoint place_all (rounds : nat) (placed : list string) (pending : list TaskConfig)
  : option (list string) :=
  match pending with
  | [] => Some placed
  | _ :: _ =>
      match rounds with
      | O => None
      | S rounds' =>
          match pick_ready placed pending with
          | Some (tc, rest) => place_all rounds' (placed ++ [tc_name tc]) rest
          | None => None
          end
      end
  end.

(** Modelled from the spec: [TaskGraph(taskconfigs).sequential_ordering()] of
    [lib.graph], which is not among the sources.  It yields one sequence
    containing every task exactly once, each task after all of its
    dependencies, ties broken by discovery order; a cyclic dependency set
    and a dependency on an unknown name are both rejected ([None] stands for
    the raised error). *)
Definition sequential_ordering (taskconfigs : list TaskConfig) : option (list string) :=
  place_all (List.length taskconfigs) [] taskconfigs.

(** [list.remove(x)]: drops the first occurrence only. *)
Fixpoint remove_first (x : string) (l : list string) : list string :=
  match l with
  | [] => []
  | y :: rest => if String.eqb x y then rest else y :: remove_first x rest
  end.

(** ** The execution engine: [process_taskdir] (lines 47-139) *)

(** The call site of a [run_task] invocation inside [process_taskdir]:
    line 95, line 104, line 111, and lines 126/135. *)
Inductive Role : Type := PreHook | Main | PostHook | HaltCmd.

Definition Role_eqb (a b : Role) : bool :=
  match a, b with
  | PreHook, PreHook | Main, Main | PostHook, PostHook | HaltCmd, HaltCmd => true
  | _, _ => false
  end.

(** What the engine needs from the outside.  [run_task] is the process
    supervisor; its first argument is a label for the call site and carries
    no information to the supervised process.  [sleep] is [time.sleep],
    [list_directory] is the directory listing of [lib.utils] (not among the
    sources) and [os_environ] is [os.environ].  A result of [None] is a call
    that does not return normally (it raises, or never comes back). *)
Class World (W : Type) : Type := {
  run_task : Role -> Cmd -> Environ -> Z -> W -> option (Outcome * W);
  sleep : Z -> W -> option W;
  list_directory : string -> W -> list string;
  os_environ : W -> Environ
}.

(** The record of what the engine did, oldest first. *)
Inductive Event : Type :=
| Ran (role : Role) (task : string) (try_num : Z) (c : Cmd) (max_time : Z) (r : Outcome)
| Slept (secs : Z)
| Iteration (t : Z).

Definition St (W : Type) : Type := (W * list Event)%type.

(** Computations of the engine: state passing over the world and the
    record, [None] when a step does not return normally. *)
Definition M (W A : Type) : Type := St W -> option (A * St W).

Definition ret {W A : Type} (a : A) : M W A := fun s => Some (a, s).

Definition bind {W A B : Type} (c : M W A) (k : A -> M W B) : M W B :=
  fun s => match c s with
           | Some (a, s') => k a s'
           | None => None
           end.

Notation "x <- c ;; k" := (bind c (fun x => k))
  (at level 61, c at next level, right associativity).
Notation "c ;; k" := (bind c (fun _ => k))
  (at level 61, right associativity).

Definition call {W : Type} `{World W} (role : Role) (task : string) (try_num : Z)
           (c : Cmd) (env : Environ) (mt : Z) : M W Outcome :=
  fun s => match run_task role c env mt (fst s) with
           | Some (r, w') => Some (r, (w', snd s ++ [Ran role task try_num c mt r]))
           | None => None
           end.

Definition pause {W : Type} `{World W} (secs : Z) : M W unit :=
  fun s => match sleep secs (fst s) with
           | Some w' => Some (tt, (w', snd s ++ [Slept secs]))
           | None => None
           end.

Definition note {W : Type} (e : Event) : M W unit :=
  fun s => Some (tt, (fst s, snd s ++ [e])).

(** ["{}".format(v)] for a value that is [None] or a string. *)
Definition text (v : option string) : string :=
  match v with
  | Some s => s
  | None => "None"%string
  end.

(** Lines 98-103. *)
Definition task_cmd (dirname : string) (task_config : TaskSettings) (t : string) : Cmd :=
  let path := path_join dirname t in
  if truthy (ts_interpreter task_config)
  then Split (text (ts_interpreter task_config)) (QPath path)
  else Direct path.

(** Lines 113-117. *)
Definition halt_cmd (config : Config) (dirname : string) : Cmd :=
  let path := path_join dirname (halt_task config) in
  if truthy (interpreter config)
  then Split (text (interpreter config)) (QPath path)
  else Direct path.

(** Lines 81-111: resolve the settings of [t], run the pre-task hook, the
    task and the post-task hook; the value is the task's outcome [r]. *)
Definition attempt {W : Type} `{World W} (config : Config) (dirname : string)
           (env : Environ) (try_num : Z) (t : string) : M W Outcome :=
  let task_config := task_settings config t in
  let task_stats := mkStats t try_num (max_tries config) None in
  (if truthy (pre_task_hook config)
   then call PreHook t try_num (Split (text (pre_task_hook config)) (QJson task_stats))
             env (ts_max_time task_config) ;; ret tt
   else ret tt) ;;
  r <- call Main t try_num (task_cmd dirname task_config t) env (ts_max_time task_config) ;;
  (if truthy (post_task_hook config)
   then call PostHook t try_num
             (Split (text (post_task_hook config))
                    (QJson (mkStats t try_num (max_tries config) (Some r))))
             env (max_time config) ;; ret tt
   else ret tt) ;;
  ret r.

(** How the body of the inner [for] leaves: [continue], [break], or
    [return False]. *)
Inductive Flow : Type := Continue | Break | ReturnFalse.

(** Lines 119-136. *)
Definition react {W : Type} `{World W} (config : Config) (dirname : string)
           (env : Environ) (try_num : Z) (t : string) (r : Outcome) : M W Flow :=
  let task_config := task_settings config t in
  match r with
  | OK => ret Continue
  | RETRY =>
      if try_num =? ts_max_tries task_config then
        call HaltCmd t try_num (halt_cmd config dirname) env (ts_max_time task_config) ;;
        ret ReturnFalse
      else
        pause (ts_sleep_time task_config) ;;
        ret Break
  | HALT =>
      call HaltCmd t try_num (halt_cmd config dirname) env (ts_max_time task_config) ;;
      ret ReturnFalse
  end.

(** How one pass (the inner [for ... else]) ends: the [else] branch ran
    ([return True]), the loop was left by [break], or by [return False]. *)
Inductive PassEnd : Type := Completed | Abandoned | Aborted.

(** Lines 80-139 for one value of [try_num]. *)
Fixpoint for_tasks {W : Type} `{World W} (config : Config) (dirname : string)
         (env : Environ) (try_num : Z) (task_list : list string) : M W PassEnd :=
  match task_list with
  | [] => ret Completed
  | t :: rest =>
      r <- attempt config dirname env try_num t ;;
      f <- react config dirname env try_num t r ;;
      match f with
      | Continue => for_tasks config dirname env try_num rest
      | Break => ret Abandoned
      | ReturnFalse => ret Aborted
      end
  end.

(** What [process_taskdir] returns: [True], [False], or [None] when the
    outer loop runs out of values. *)
Inductive Ret : Type := RTrue | RFalse | RNone.

Definition ret_truthy (v : Ret) : bool :=
  match v with
  | RTrue => true
  | RFalse | RNone => false
  end.

(** Lines 79-139 over the remaining values of [try_num]. *)
Fixpoint for_tries {W : Type} `{World W} (config : Config) (dirname : string)
         (env : Environ) (tries : list Z) (task_list : list string) : M W Ret :=
  match tries with
  | [] => ret RNone
  | try_num :: later =>
      e <- for_tasks config dirname env try_num task_list ;;
      match e with
      | Completed => ret RTrue
      | Aborted => ret RFalse
      | Abandoned => for_tries config dirname env later task_list
      end
  end.

(** [range(start, stop)]. *)
Definition range (start stop : Z) : list Z :=
  map (fun i => start + Z.of_nat i) (seq 0 (Z.to_nat (stop - start))).

(** Lines 48-60. *)
Definition discover {W : Type} `{World W} (config : Config) (dirname : string) (w : W)
  : list TaskConfig :=
  let tasks := list_directory dirname w in
  let tasks := if mem (halt_task config) tasks
               then remove_first (halt_task config) tasks else tasks in
  map (fun t => match get config t "depends_on" with
                | Some deps => mkTaskConfig t (map strip (split_commas deps))
                | None => mkTaskConfig t []
                end) tasks.

(** Lines 48-63: the Resolved Order [task_list]. *)
Definition resolved_order {W : Type} `{World W} (config : Config) (dirname : string) (w : W)
  : option (list string) :=
  sequential_ordering (discover config dirname w).

Definition process_taskdir {W : Type} `{World W} (config : Config) (dirname : string)
  : M W Ret :=
  fun s =>
    match resolved_order config dirname (fst s) with
    | None => None
    | Some task_list =>
        let env := env_update (os_environ (fst s)) (get_env config) in
        for_tries config dirname env (range 1 (max_tries config + 1)) task_list s
    end.

(** The entries of the record made from one call site, and the sleeps. *)
Definition role_is (ro : Role) (e : Event) : bool :=
  match e with
  | Ran r _ _ _ _ _ => Role_eqb r ro
  | _ => false
  end.

Definition ran (ro : Role) (log : list Event) : list Event := filter (role_is ro) log.

Definition is_slept (e : Event) : bool :=
  match e with
  | Slept _ => true
  | _ => false
  end.

Definition slept (log : list Event) : list Event := filter is_slept log.

Definition is_iteration (e : Event) : bool :=
  match e with
  | Iteration _ => true
  | _ => false
  end.

Definition iterations (log : list Event) : list Event := filter is_iteration log.

(** The entry left by line 104 for task [t] in pass [try_num]. *)
Definition main_run (config : Config) (dirname : string) (try_num : Z) (t : string)
           (r : Outcome) : Event :=
  Ran Main t try_num (task_cmd dirname (task_settings config t) t)
      (ts_max_time (task_settings config t)) r.

(** The entry left by line 126 or line 135 when task [t] stops the run. *)
Definition halt_run (config : Config) (dirname : string) (try_num : Z) (t : string)
           (r : Outcome) : Event :=
  Ran HaltCmd t try_num (halt_cmd config dirname)
      (ts_max_time (task_settings config t)) r.

Definition task_of (e : Event) : string :=
  match e with
  | Ran _ t _ _ _ _ => t
  | _ => EmptyString
  end.

Definition outcome_of (e : Event) : Outcome :=
  match e with
  | Ran _ _ _ _ _ r => r
  | _ => OK
  end.

(** The task entries of a pass in which every task of [tasks] returned
    [OK]. *)
Definition oks (config : Config) (dirname : string) (try_num : Z) (tasks : list string)
  : list Event :=
  map (fun t => main_run config dirname try_num t OK) tasks.

(** What a pass that ended with [e] added to the record: every task ran
    once, in order, and returned [OK]; or the tasks up to some [t] ran, [t]
    returned [RETRY] away from its threshold, and the last entry is the
    sleep; or the tasks up to some [t] ran, [t] returned [HALT] or a [RETRY]
    on its threshold, and the last entry is the one halt command. *)
Definition pass_shape (config : Config) (dirname : string) (try_num : Z)
           (tasks : list string) (e : PassEnd) (new : list Event) : Prop :=
  iterations new = [] /\
  match e with
  | Completed =>
      ran Main new = oks config dirname try_num tasks /\
      ran HaltCmd new = [] /\ slept new = []
  | Abandoned =>
      exists pre t post front,
        tasks = pre ++ t :: post /\
        ran Main new = oks config dirname try_num pre
                       ++ [main_run config dirname try_num t RETRY] /\
        try_num <> ts_max_tries (task_settings config t) /\
        ran HaltCmd new = [] /\
        new = front ++ [Slept (ts_sleep_time (task_settings config t))] /\
        slept front = []
  | Aborted =>
      exists pre t post r rh front,
        tasks = pre ++ t :: post /\
        ran Main new = oks config dirname try_num pre
                       ++ [main_run config dirname try_num t r] /\
        (r = HALT \/ (r = RETRY /\ try_num = ts_max_tries (task_settings config t))) /\
        new = front ++ [halt_run config dirname try_num t rh] /\
        ran HaltCmd front = [] /\
        slept new = []
  end.

(** ** The run driver: [runner] (lines 158-170) *)

(** How [runner] ends: the loop is left by [break] and the function returns,
    [exit(code)] is called, or the loop is still turning when the fuel (one
    unit per turn) is spent. *)
Inductive RunnerEnd : Type := Finished | SysExit (code : Z) | StillLooping.

(** [times and t > times] with [times] an int or [None]. *)
Definition past_limit (times : option Z) (t : Z) : bool :=
  match times with
  | None => false
  | Some n => if n =? 0 then false else t >? n
  end.

Fixpoint runner_loop {W : Type} `{World W} (fuel : nat) (config : Config)
         (taskdir : string) (times : option Z) (t : Z) : M W RunnerEnd :=
  match fuel with
  | O => ret StillLooping
  | S fuel' =>
      let t := t + 1 in
      if past_limit times t then ret Finished
      else
        note (Iteration t) ;;
        v <- process_taskdir config taskdir ;;
        if ret_truthy v then runner_loop fuel' config taskdir times t
        else ret (SysExit 1)
  end.

Definition runner {W : Type} `{World W} (fuel : nat) (config : Config)
           (taskdir : string) (times : option Z) : M W RunnerEnd :=
  runner_loop fuel config taskdir times 0.

(** ** The engine on a machine *)

(** The engine's world when [run_task] is the supervisor above, granted
    [fuel] turns of its loop per call, on machine [m]; [files] is the content
    of each directory and [environment] the environment of the runner
    itself. *)
Definition HostWorld (fuel : nat) (m : Supervisor.Machine)
           (files : string -> list string) (environment : Environ)
  : World Supervisor.Host := {|
  run_task := fun _ c env mt h => Supervisor.run_task fuel m c env mt h;
  sleep := fun secs h => Supervisor.sleep m secs h;
  list_directory := fun d _ => files d;
  os_environ := fun _ => environment
|}.

Definition boot : Supervisor.Host := Supervisor.mkHost 0 0 0 [].

(** The host after [k] more sleeps of [secs] seconds. *)
Fixpoint after_naps (m : Supervisor.Machine) (secs : Z) (k : nat)
         (h : Supervisor.Host) : Supervisor.Host :=
  match k with
  | O => h
  | S k' => after_naps m secs k' (Supervisor.nap m secs h)
  end.

(** The host right after the [Popen] of [run_task]. *)
Definition started (t : Cmd) (h : Supervisor.Host) : Supervisor.Host :=
  Supervisor.mkHost (Supervisor.clock h) (S (Supervisor.spawned h))
                    (Supervisor.naps h)
                    (Supervisor.syslog h ++ [Supervisor.Spawn (Supervisor.spawned h) t]).

(** The pause between two polls of [run_task] (lines 26-36). *)
Definition period (max_time : Z) : Z := if max_time =? 0 then 20 else 1.

(** The last system call of a [run_task]: [proc.wait()] on an exited
    process, or [proc.terminate()]. *)
Inductive Ending : Type := Reaped (rv : Z) | Killed.

Definition final_call (pid : nat) (e : Ending) : Supervisor.SysEvent :=
  match e with
  | Reaped rv => Supervisor.Reap pid rv
  | Killed => Supervisor.Terminate pid
  end.

(** The system calls of one [run_task] that sleeps [k] times. *)
Definition calls_of_run (pid : nat) (t : Cmd) (max_time : Z) (k : nat) (e : Ending)
  : list Supervisor.SysEvent :=
  Supervisor.Spawn pid t
    :: repeat (Supervisor.Nap (period max_time)) k ++ [final_call pid e].

(** ** Sample machines *)

Definition job : Cmd := Direct "tasks/job".

(** Every process lives two and a half seconds and leaves status 2; sleeps
    are exact. *)
Definition steady : Supervisor.Machine :=
  Supervisor.mkMachine (fun _ _ _ => Supervisor.mkProc (Some (5 # 2)%Q) 2)
                       (fun _ => 0%Q).

(** Every process lives 1.05 seconds and leaves status 0; every sleep wakes
    up a tenth of a second late. *)
Definition sluggish : Supervisor.Machine :=
  Supervisor.mkMachine (fun _ _ _ => Supervisor.mkProc (Some (21 # 20)%Q) 0)
                       (fun _ => (1 # 10)%Q).

(** No process ever exits; every sleep wakes up a tenth of a second late. *)
Definition stuck : Supervisor.Machine :=
  Supervisor.mkMachine (fun _ _ _ => Supervisor.mkProc None 0)
                       (fun _ => (1 # 10)%Q).

(** Every process exits at once, with the status [table] gives its
    command; sleeps are exact. *)
Definition instant (table : Cmd -> Z) : Supervisor.Machine :=
  Supervisor.mkMachine (fun _ c _ => Supervisor.mkProc (Some 0%Q) (table c))
                       (fun _ => 0%Q).

(** ** A sample task directory

    The directory [tasks] holds [a], [b], [c] and the halt task [halt].
    Tasks run under the interpreter [sh], with a pre-task and a post-task
    hook.  Task [b] has its own [max_time] and, optionally, its own
    [max_tries]. *)

Definition sample_files (d : string) : list string :=
  if String.eqb d "tasks" then ["a"; "b"; "c"; "halt"]%string else [].

Definition sample_config (tries : Z) (b_tries : option Z) : Config :=
  mkConfig 600 tries 1 (Some "sh"%string) "halt" (Some "pre"%string) (Some "post"%string)
           (fun _ _ => None) []
           (fun t => if String.eqb t "b"
                     then mkOverrides (Some 30) b_tries None None
                     else no_overrides).

(** The status left by each command: [hooks] for both hooks, [halt] for the
    halt command, [b] for task [b], and 0 for every other task. *)
Definition sample_table (hooks halt b : Z) (c : Cmd) : Z :=
  match c with
  | Split _ (QJson _) => hooks
  | Split _ (QPath p) =>
      if String.eqb p "tasks/b" then b
      else if String.eqb p "tasks/halt" then halt
      else 0
  | Direct _ => 0
  end.

Definition sample_world (hooks halt b : Z) : World Supervisor.Host :=
  HostWorld 2 (instant (sample_table hooks halt b)) sample_files [].

Definition fresh : St Supervisor.Host := (boot, []).

(** The reading of the retry rule in which a [RETRY] below the task's
    threshold always leads to another pass, whatever the value of the
    attempt counter. *)
Definition retry_always_restarts : Prop :=
  forall (W : Type) (world : World W) (config : Config) (dirname : string)
         (env : Environ) (n : Z) (pre : list string) (t : string)
         (post : list string) (s s1 s2 : St W) (w3 : W),
    1 <= n <= max_tries config ->
    for_tasks config dirname env n pre s = Some (Completed, s1) ->
    attempt config dirname env n t s1 = Some (RETRY, s2) ->
    n < ts_max_tries (task_settings config t) ->
    sleep (ts_sleep_time (task_settings config t)) (fst s2) = Some w3 ->
    let s3 := (w3, snd s2 ++ [Slept (ts_sleep_time (task_settings config t))]) in
    for_tasks config dirname env n (pre ++ t :: post) s = Some (Abandoned, s3) /\
    for_tries config dirname env (range n (max_tries config + 1)) (pre ++ t :: post) s =
    for_tries config dirname env (n + 1 :: range (n + 2) (max_tries config + 1))
              (pre ++ t :: post) s3.


(** ** Comparing two runs *)

(** An entry of the record with the outcome of a hook or of the halt
    command masked; task entries, sleeps and iterations are kept as they
    are. *)
Definition blind (e : Event) : Event :=
  match e with
  | Ran Main _ _ _ _ _ => e
  | Ran role t n c mt _ => Ran role t n c mt OK
  | _ => e
  end.

(** Two answers of [run_task] that carry the same outcome. *)
Definition same_answer {W1 W2 : Type} (R : W1 -> W2 -> Prop)
           (x : option (Outcome * W1)) (y : option (Outcome * W2)) : Prop :=
  match x, y with
  | Some (r1, w1), Some (r2, w2) => r1 = r2 /\ R w1 w2
  | None, None => True
  | _, _ => False
  end.

(** Two answers of [run_task] whose outcomes are free to differ. *)
Definition any_answer {W1 W2 : Type} (R : W1 -> W2 -> Prop)
           (x : option (Outcome * W1)) (y : option (Outcome * W2)) : Prop :=
  match x, y with
  | Some (_, w1), Some (_, w2) => R w1 w2
  | None, None => True
  | _, _ => False
  end.

Definition same_wake {W1 W2 : Type} (R : W1 -> W2 -> Prop)
           (x : option W1) (y : option W2) : Prop :=
  match x, y with
  | Some w1, Some w2 => R w1 w2
  | None, None => True
  | _, _ => False
  end.

(** Two states of the engine in related worlds, with records that differ at
    most in the outcomes of hooks and halt commands. *)
Definition related {W1 W2 : Type} (R : W1 -> W2 -> Prop)
           (s1 : St W1) (s2 : St W2) : Prop :=
  R (fst s1) (fst s2) /\ map blind (snd s1) = map blind (snd s2).

(** Two runs of an engine computation that return the same value and leave
    records that differ at most in the outcomes of hooks and halt
    commands. *)
Definition same_flow {A W1 W2 : Type} (R : W1 -> W2 -> Prop)
           (x : option (A * St W1)) (y : option (A * St W2)) : Prop :=
  match x, y with
  | Some (a, s1), Some (b, s2) =>
      a = b /\ R (fst s1) (fst s2) /\ map blind (snd s1) = map blind (snd s2)
  | None, None => True
  | _, _ => False
  end.

(** ** The command line: [main] (lines 173-196) *)

(** What [parser.parse_args()] hands to [main]: the options [-c], [-g],
    [-n] and the positional task directory.  The log level only affects
    logging and is left out. *)
Record Args : Type := mkArgs {
  a_config_file : option string;
  a_get : option string;
  a_times : option Z;
  a_taskdir : option string
}.

(** [s.split(".", 1)] when it yields two fields: the text before the first
    dot and the text after it.  [None] is the one-field result, on which the
    unpacking of line 184 raises. *)
Fixpoint split_once (s : string) : option (string * string) :=
  match s with
  | EmptyString => None
  | String c rest =>
      if Ascii.eqb c "."%char then Some (EmptyString, rest)
      else match split_once rest with
           | Some (before, after) => Some (String c before, after)
           | None => None
           end
  end.

(** How [main] ends: [exit(code)] (also [parser.error], which exits with
    status 2), a normal return (the process then ends with status 0), the
    [ValueError] of the unpacking at line 184, or [runner] still looping
    when its fuel is spent. *)
Inductive MainEnd : Type :=
| Exited (code : Z)
| Returned
| UnpackError
| Looping.

(** Lines 178-180.  [blank] is the [Config()] object and [load_config] its
    method (both of [lib.config], not among the sources; [None] is a load
    that raises). *)
Definition configured (blank : Config)
           (load_config : string -> Config -> option Config) (args : Args)
  : option Config :=
  if truthy (a_config_file args)
  then load_config (text (a_config_file args)) blank
  else Some blank.

(** Lines 173-196.  The result carries what was printed; [path_exists] is
    [os.path.exists]. *)
Definition main {W : Type} `{World W} (fuel : nat) (blank : Config)
           (load_config : string -> Config -> option Config)
           (path_exists : string -> W -> bool) (args : Args)
  : St W -> option (MainEnd * list string * St W) :=
  fun s =>
    match configured blank load_config args with
    | None => None
    | Some config =>
        if truthy (a_get args) then
          match split_once (text (a_get args)) with
          | None => Some (UnpackError, [], s)
          | Some (section, key) =>
              match get config section key with
              | Some v => Some (Exited 0, [v], s)
              | None => Some (Exited 0, [], s)
              end
          end
        else if negb (truthy (a_taskdir args)) then Some (Exited 2, [], s)
        else if negb (path_exists (text (a_taskdir args)) (fst s)) then
          Some (Exited 1, [], s)
        else
          match runner fuel config (text (a_taskdir args)) (a_times args) s with
          | Some (Finished, s') => Some (Returned, [], s')
          | Some (SysExit code, s') => Some (Exited code, [], s')
          | Some (StillLooping, s') => Some (Looping, [], s')
          | None => None
          end
    end.

(** ** Readings of the record and of the data *)

(** [env[k]], when present. *)
Fixpoint env_lookup (k : string) (env : Environ) : option string :=
  match env with
  | [] => None
  | (k', v) :: rest => if String.eqb k k' then Some v else env_lookup k rest
  end.

(** The values of [try_num] under which the entries were recorded. *)
Definition try_nums (log : list Event) : list Z :=
  flat_map (fun e => match e with
                     | Ran _ _ n _ _ _ => [n]
                     | _ => []
                     end) log.

Fixpoint nondecreasing (l : list Z) : Prop :=
  match l with
  | [] => True
  | x :: rest => (forall y, In y rest -> x <= y) /\ nondecreasing rest
  end.

(** [",".join(fields)]. *)
Fixpoint join_commas (fields : list string) : string :=
  match fields with
  | [] => EmptyString
  | [f] => f
  | f :: rest => (f ++ "," ++ join_commas rest)%string
  end.

Fixpoint has_char (c : ascii) (s : string) : bool :=
  match s with
  | EmptyString => false
  | String c' rest => (Ascii.eqb c c' || has_char c rest)%bool
  end.

Definition first_char (s : string) : option ascii :=
  match s with
  | String c _ => Some c
  | EmptyString => None
  end.

Fixpoint last_char (s : string) : option ascii :=
  match s with
  | EmptyString => None
  | String c EmptyString => Some c
  | String _ rest => last_char rest
  end.

Definition spaceless_ends (s : string) : Prop :=
  (forall c, first_char s = Some c -> is_space c = false) /\
  (forall c, last_char s = Some c -> is_space c = false).

(** The entries the hooks and the task of one [attempt] leave, given what
    the hooks returned. *)
Definition attempt_entries (config : Config) (dirname : string) (try_num : Z)
           (t : string) (before r after : Outcome) : list Event :=
  (if truthy (pre_task_hook config)
   then [Ran PreHook t try_num
             (Split (text (pre_task_hook config))
                    (QJson (mkStats t try_num (max_tries config) None)))
             (ts_max_time (task_settings config t)) before]
   else [])
  ++ [main_run config dirname try_num t r]
  ++ (if truthy (post_task_hook config)
      then [Ran PostHook t try_num
                (Split (text (post_task_hook config))
                       (QJson (mkStats t try_num (max_tries config) (Some r))))
                (max_time config) after]
      else []).

(** A configuration file for the sample directory and a command line. *)
Definition sample_blank : Config :=
  mkConfig 600 5 1 None "halt" None None
           (fun section option =>
              if (String.eqb section "env" && String.eqb option "PATH")%bool
              then Some "/usr/bin"%string else None)
           [] (fun _ => no_overrides).

Definition sample_load (file : string) (c : Config) : option Config :=
  if String.eqb file "runner.cfg" then Some (sample_config 3 None) else None.

Definition sample_exists (path : string) (h : Supervisor.Host) : bool :=
  String.eqb path "tasks".

(** * Properties *)

(** ** The process supervisor *)

Section SupervisorFacts.

Import Supervisor.

Lemma classify_cases (rv : Z) :
  (rv = 0 -> classify rv = OK) /\
  (rv = 2 -> classify rv = HALT) /\
  (rv <> 0 -> rv <> 2 -> classify rv = RETRY).
Proof.
  unfold classify. repeat split; intros.
  - subst. reflexivity.
  - subst. reflexivity.
  - destruct (Z.eqb_spec rv 0); [contradiction|].
    destruct (Z.eqb_spec rv 2); [contradiction|]. reflexivity.
Qed.

Lemma poll_status (p : Proc) (start now : Q) (rv : Z) :
  poll p start now = Some rv -> rv = status p.
Proof.
  unfold poll. destruct (lifetime p); [|discriminate].
  destruct (Qle_bool _ _); [|discriminate]. congruence.
Qed.

Lemma poll_exited (p : Proc) (start now : Q) (d : Q) :
  lifetime p = Some d -> (start + d <= now)%Q -> poll p start now = Some (status p).
Proof.
  intros Hd Hle. unfold poll. rewrite Hd.
  apply Qle_bool_iff in Hle. now rewrite Hle.
Qed.

Lemma poll_running (p : Proc) (start now : Q) (d : Q) :
  lifetime p = Some d -> poll p start now = None -> (now < start + d)%Q.
Proof.
  unfold poll. intros ->. destruct (Qle_bool (start + d) now) eqn:E; [discriminate|].
  intros _. apply Qnot_le_lt. intro Hle. apply Qle_bool_iff in Hle. congruence.
Qed.

(** Every return of the loop is a [wait] on an exited process or a
    [terminate] of a running one past its budget, after some sleeps of one
    period each. *)
Lemma supervise_loop_shape (m : Machine) (p : Proc) (pid : nat) (start : Q) (max_time : Z) :
  forall fuel h r h',
    supervise_loop fuel m p pid start max_time h = Some (r, h') ->
    exists k e,
      h' = emit (final_call pid e) (after_naps m (period max_time) k h) /\
      match e with
      | Reaped rv => rv = status p /\ r = classify rv /\
                     poll p start (clock h') = Some rv
      | Killed => r = RETRY /\ max_time <> 0 /\
                  poll p start (clock h') = None /\
                  (inject_Z max_time < clock h' - start)%Q
      end.
Proof.
  induction fuel as [|fuel IH]; intros h r h' Hrun; [discriminate|].
  simpl in Hrun.
  destruct (poll p start (clock h)) as [rv|] eqn:Hpoll.
  - inversion Hrun; subst. exists 0%nat, (Reaped rv). simpl.
    repeat split; auto. eapply poll_status; eauto.
  - destruct (Z.eqb_spec max_time 0) as [Hz|Hnz].
    + assert (Hp : period max_time = 20) by (unfold period; subst; reflexivity).
      apply IH in Hrun. destruct Hrun as (k & e & -> & He).
      exists (S k), e. simpl. rewrite Hp in *. split; [reflexivity|exact He].
    + assert (Hp : period max_time = 1).
      { unfold period. destruct (Z.eqb_spec max_time 0); [contradiction|reflexivity]. }
      destruct (Qlt_le_dec (inject_Z max_time) (clock h - start)) as [Hlt|Hle].
      * inversion Hrun; subst. exists 0%nat, Killed. simpl. auto.
      * apply IH in Hrun. destruct Hrun as (k & e & -> & He).
        exists (S k), e. simpl. rewrite Hp in *. split; [reflexivity|exact He].
Qed.

Lemma after_naps_syslog (m : Machine) (secs : Z) :
  forall k h, syslog (after_naps m secs k h) = syslog h ++ repeat (Nap secs) k.
Proof.
  induction k as [|k IH]; intros h; simpl.
  - now rewrite app_nil_r.
  - rewrite IH. simpl. now rewrite <- app_assoc.
Qed.


Lemma run_task_shape (m : Machine) (t : Cmd) (env : Environ) (max_time : Z) :
  forall fuel h r h',
    run_task fuel m t env max_time h = Some (r, h') ->
    exists k e,
      h' = emit (final_call (spawned h) e) (after_naps m (period max_time) k (started t h)) /\
      syslog h' = syslog h ++ calls_of_run (spawned h) t max_time k e /\
      match e with
      | Reaped rv => rv = status (procs m (spawned h) t env) /\ r = classify rv /\
                     poll (procs m (spawned h) t env) (clock h) (clock h') = Some rv
      | Killed => r = RETRY /\ max_time <> 0 /\
                  poll (procs m (spawned h) t env) (clock h) (clock h') = None /\
                  (inject_Z max_time < clock h' - clock h)%Q
      end.
Proof.
  unfold run_task. intros fuel h r h' Hrun.
  apply supervise_loop_shape in Hrun. destruct Hrun as (k & e & Hh & He).
  exists k, e. split; [exact Hh|]. split; [|exact He].
  rewrite Hh. unfold emit. simpl. rewrite after_naps_syslog. simpl.
  unfold calls_of_run. rewrite <- !app_assoc. reflexivity.
Qed.

(** A process that exits within its budget is seen to exit: after at most
    [k] periods, where [k] seconds cover what is left of its lifetime. *)
Lemma supervise_loop_reaps (m : Machine) (p : Proc) (pid : nat) (start : Q)
      (max_time : Z) (d : Q) :
  lifetime p = Some d ->
  (forall i, 0 <= lag m i)%Q ->
  (max_time = 0 \/ (d <= inject_Z max_time)%Q) ->
  forall k fuel h,
    (k < fuel)%nat ->
    (start + d - clock h <= inject_Z (Z.of_nat k))%Q ->
    exists j,
      supervise_loop fuel m p pid start max_time h =
      Some (classify (status p),
            emit (Reap pid (status p)) (after_naps m (period max_time) j h)).
Proof.
  intros Hd Hlag Hfit. induction k as [|k IH]; intros fuel h Hfuel Hleft.
  - destruct fuel as [|fuel]; [lia|]. simpl.
    change (inject_Z (Z.of_nat 0)) with 0%Q in Hleft.
    rewrite (poll_exited p start (clock h) d Hd) by lra.
    exists 0%nat. reflexivity.
  - destruct fuel as [|fuel]; [lia|]. simpl.
    destruct (poll p start (clock h)) as [rv|] eqn:Hpoll.
    + apply poll_status in Hpoll. subst rv. exists 0%nat. reflexivity.
    + pose proof (poll_running p start (clock h) d Hd Hpoll) as Hrunning.
      rewrite Nat2Z.inj_succ in Hleft. unfold Z.succ in Hleft.
      rewrite inject_Z_plus in Hleft. change (inject_Z 1) with 1%Q in Hleft.
      pose proof (Hlag (naps h)) as Hl.
      destruct (Z.eqb_spec max_time 0) as [Hz|Hnz].
      * assert (Hp : period max_time = 20) by (unfold period; subst; reflexivity).
        destruct (IH fuel (nap m 20 h)) as [j Hj]; [lia| |].
        { simpl. change (inject_Z 20) with 20%Q. lra. }
        exists (S j). rewrite Hj, Hp. reflexivity.
      * assert (Hp : period max_time = 1).
        { unfold period. destruct (Z.eqb_spec max_time 0); [contradiction|reflexivity]. }
        destruct Hfit as [Hz|Hfit]; [contradiction|].
        destruct (Qlt_le_dec (inject_Z max_time) (clock h - start)) as [Hlt|Hle]; [lra|].
        destruct (IH fuel (nap m 1 h)) as [j Hj]; [lia| |].
        { simpl. change (inject_Z 1) with 1%Q. lra. }
        exists (S j). rewrite Hj, Hp. reflexivity.
Qed.



(** C3: for every invocation of [run_task] in which the spawned process
    exits on its own, the returned outcome is determined by the exit code
    alone: 0 gives [OK], 2 gives [HALT], every other code gives [RETRY]; the
    result is always one of the three values.  First part: whatever
    [run_task] returns is one of the three outcomes, and when its last call
    is the [wait] on the exited process the outcome is [classify] of that
    process's status.  Second part: a process that exits within the budget
    (or under no budget) is always reaped, so [run_task] does return
    [classify] of its status.  Third part: the table of [classify]. *)
Theorem run_task_exit_code (m : Machine) (t : Cmd) (env : Environ) (max_time : Z) (h : Host) :
  let pid := spawned h in
  let p := procs m pid t env in
  (forall fuel r h',
      run_task fuel m t env max_time h = Some (r, h') ->
      (r = OK \/ r = RETRY \/ r = HALT) /\
      exists k e,
        syslog h' = syslog h ++ calls_of_run pid t max_time k e /\
        match e with
        | Reaped rv => rv = status p /\ r = classify rv
        | Killed => r = RETRY
        end) /\
  (forall d,
      lifetime p = Some d ->
      (forall i, 0 <= lag m i)%Q ->
      max_time = 0 \/ (d <= inject_Z max_time)%Q ->
      exists n, forall fuel, (n <= fuel)%nat ->
        exists h' k,
          run_task fuel m t env max_time h = Some (classify (status p), h') /\
          syslog h' = syslog h ++ calls_of_run pid t max_time k (Reaped (status p))) /\
  (forall rv,
      (rv = 0 -> classify rv = OK) /\
      (rv = 2 -> classify rv = HALT) /\
      (rv <> 0 -> rv <> 2 -> classify rv = RETRY)).
Proof.
  intros pid p. split; [|split].
  - intros fuel r h' Hrun. split.
    + destruct r; auto.
    + apply run_task_shape in Hrun. destruct Hrun as (k & e & _ & Hlog & He).
      exists k, e. split; [exact Hlog|].
      destruct e; [destruct He as (? & ? & _)|destruct He as (? & _)]; auto.
  - intros d Hd Hlag Hfit.
    exists (S (Z.to_nat (Qceiling d))). intros fuel Hfuel.
    destruct (supervise_loop_reaps m p pid (clock h) max_time d Hd Hlag Hfit
                (Z.to_nat (Qceiling d)) fuel (started t h)) as [j Hj]; [lia| |].
    + simpl. pose proof (Qle_ceiling d) as Hc.
      assert (Hz : (inject_Z (Qceiling d) <= inject_Z (Z.of_nat (Z.to_nat (Qceiling d))))%Q).
      { rewrite <- Zle_Qle. lia. }
      lra.
    + eexists. exists j. split; [exact Hj|].
      unfold emit. simpl. rewrite after_naps_syslog. simpl.
      unfold calls_of_run. rewrite <- !app_assoc. reflexivity.
  - apply classify_cases.
Qed.

Lemma run_task_exit_code_witness :
  exists n, forall fuel, (n <= fuel)%nat ->
    exists h' k,
      run_task fuel steady job [] 10 boot = Some (HALT, h') /\
      syslog h' = syslog boot ++ calls_of_run 0 job 10 k (Reaped 2).
Proof.
  destruct (run_task_exit_code steady job [] 10 boot) as (_ & Hreturns & _).
  apply (Hreturns (5 # 2)%Q).
  - reflexivity.
  - intros i. simpl. apply Qle_refl.
  - right. vm_compute. discriminate.
Defined.




End SupervisorFacts.

(** ** The dependency resolver and task discovery *)

Section ResolverFacts.

Lemma mem_In (x : string) (l : list string) : mem x l = true <-> In x l.
Proof.
  unfold mem. rewrite existsb_exists. split.
  - intros (y & Hy & Heq). apply String.eqb_eq in Heq. now subst.
  - intros Hin. exists x. split; [exact Hin|apply String.eqb_refl].
Qed.

Lemma remove_first_subset (x y : string) (l : list string) :
  In y (remove_first x l) -> In y l.
Proof.
  induction l as [|z l IH]; simpl; [tauto|].
  destruct (String.eqb x z); simpl; tauto.
Qed.

Lemma remove_first_gone (x : string) (l : list string) :
  NoDup l -> ~ In x (remove_first x l).
Proof.
  induction l as [|z l IH]; simpl; intros Hnd; [tauto|].
  inversion Hnd as [|? ? Hz Hl]; subst.
  destruct (String.eqb_spec x z) as [->|Hne]; [exact Hz|].
  simpl. intros [Heq|Hin]; [congruence|]. now apply IH.
Qed.

Lemma pick_ready_sound (placed : list string) :
  forall pending tc rest,
    pick_ready placed pending = Some (tc, rest) ->
    In tc pending /\ (forall x, In x rest -> In x pending) /\
    List.length pending = S (List.length rest) /\
    ready placed tc = true.
Proof.
  induction pending as [|hd tl IH]; simpl; intros tc rest Hpick; [discriminate|].
  destruct (ready placed hd) eqn:Hready.
  - inversion Hpick; subst. auto.
  - destruct (pick_ready placed tl) as [[found rest']|] eqn:Htl; [|discriminate].
    inversion Hpick; subst. destruct (IH _ _ eq_refl) as (Hin & Hsub & Hlen & Hr).
    split; [right; exact Hin|]. split; [|split; [simpl; now rewrite Hlen|exact Hr]].
    intros x [Hx|Hx]; [left; exact Hx|right; auto].
Qed.

Lemma place_all_names :
  forall rounds placed pending order,
    place_all rounds placed pending = Some order ->
    forall x, In x order -> In x placed \/ In x (map tc_name pending).
Proof.
  induction rounds as [|rounds IH]; intros placed pending order Hplace x Hx.
  - destruct pending; simpl in Hplace; [|discriminate].
    inversion Hplace; subst. now left.
  - destruct pending as [|hd tl].
    + simpl in Hplace. inversion Hplace; subst. now left.
    + remember (hd :: tl) as pending eqn:Hpending.
      assert (Hstep : place_all (S rounds) placed pending =
                      match pick_ready placed pending with
                      | Some (tc, rest) => place_all rounds (placed ++ [tc_name tc]) rest
                      | None => None
                      end) by (subst pending; reflexivity).
      rewrite Hstep in Hplace. clear Hstep.
      destruct (pick_ready placed pending) as [[tc rest]|] eqn:Hpick; [|discriminate].
      apply pick_ready_sound in Hpick. destruct Hpick as (Hin & Hsub & _).
      destruct (IH _ _ _ Hplace x Hx) as [Hplaced|Hrest].
      * apply in_app_or in Hplaced. destruct Hplaced as [Hp|[Heq|[]]]; [now left|].
        right. subst x. now apply in_map.
      * right. apply in_map_iff in Hrest. destruct Hrest as (tc' & Hname & Hin').
        apply in_map_iff. exists tc'. auto.
Qed.

(** The ordering lists only tasks it was given. *)
Lemma sequential_ordering_names (taskconfigs : list TaskConfig) (order : list string) :
  sequential_ordering taskconfigs = Some order ->
  forall x, In x order -> In x (map tc_name taskconfigs).
Proof.
  unfold sequential_ordering. intros Hplace x Hx.
  destruct (place_all_names _ _ _ _ Hplace x Hx) as [[]|Hin]. exact Hin.
Qed.

(** The testable property of the resolver: [a] depends on [b]. *)
Example sequential_ordering_b_then_a :
  sequential_ordering [mkTaskConfig "a" ["b"%string]; mkTaskConfig "b" []]
  = Some ["b"%string; "a"%string].
Proof. reflexivity. Qed.

Example sequential_ordering_cycle :
  sequential_ordering [mkTaskConfig "a" ["b"%string]; mkTaskConfig "b" ["a"%string]] = None.
Proof. reflexivity. Qed.

Context {W : Type} {world : World W}.

Lemma discover_names (config : Config) (dirname : string) (w : W) :
  forall x, In x (map tc_name (discover config dirname w)) ->
            In x (list_directory dirname w) /\
            (NoDup (list_directory dirname w) -> x <> halt_task config).
Proof.
  intros x. unfold discover. rewrite map_map.
  set (tasks := list_directory dirname w).
  assert (Hnames : forall l, map (fun t => tc_name
             match get config t "depends_on" with
             | Some deps => mkTaskConfig t (map strip (split_commas deps))
             | None => mkTaskConfig t []
             end) l = l).
  { induction l as [|t l IH]; simpl; [reflexivity|].
    rewrite IH. destruct (get config t "depends_on"); reflexivity. }
  rewrite Hnames.
  destruct (mem (halt_task config) tasks) eqn:Hmem; intros Hin.
  - split; [eapply remove_first_subset; eauto|].
    intros Hnd ->. eapply remove_first_gone; eauto.
  - split; [exact Hin|]. intros _ ->.
    apply mem_In in Hin. congruence.
Qed.

End ResolverFacts.

(** ** The execution engine *)

Section EngineFacts.

Context {W : Type} {world : World W}.
Variables (config : Config) (dirname : string) (env : Environ).

Lemma ran_app (ro : Role) (a b : list Event) : ran ro (a ++ b) = ran ro a ++ ran ro b.
Proof. apply filter_app. Qed.

Lemma slept_app (a b : list Event) : slept (a ++ b) = slept a ++ slept b.
Proof. apply filter_app. Qed.

Lemma iterations_app (a b : list Event) :
  iterations (a ++ b) = iterations a ++ iterations b.
Proof. apply filter_app. Qed.

Lemma call_inv (role : Role) (t : string) (n : Z) (c : Cmd) (mt : Z)
      (s : St W) (r : Outcome) (s' : St W) :
  call role t n c env mt s = Some (r, s') ->
  exists w', run_task role c env mt (fst s) = Some (r, w') /\
             s' = (w', snd s ++ [Ran role t n c mt r]).
Proof.
  unfold call. destruct (run_task role c env mt (fst s)) as [[r0 w0]|]; [|discriminate].
  intros Heq. inversion Heq; subst. eauto.
Qed.

Lemma call_run (role : Role) (t : string) (n : Z) (c : Cmd) (mt : Z)
      (s : St W) (r : Outcome) (w' : W) :
  run_task role c env mt (fst s) = Some (r, w') ->
  call role t n c env mt s = Some (r, (w', snd s ++ [Ran role t n c mt r])).
Proof. unfold call. now intros ->. Qed.

Lemma pause_inv (secs : Z) (s : St W) (u : unit) (s' : St W) :
  pause secs s = Some (u, s') ->
  exists w', sleep secs (fst s) = Some w' /\ s' = (w', snd s ++ [Slept secs]).
Proof.
  unfold pause. destruct (sleep secs (fst s)) as [w0|]; [|discriminate].
  intros Heq. inversion Heq; subst. eauto.
Qed.

(** The hooks and the task add exactly one task entry, no halt entry and no
    sleep. *)
Lemma attempt_record (n : Z) (t : string) (s : St W) (r : Outcome) (s' : St W) :
  attempt config dirname env n t s = Some (r, s') ->
  exists new,
    snd s' = snd s ++ new /\
    ran Main new = [main_run config dirname n t r] /\
    ran HaltCmd new = [] /\ slept new = [] /\ iterations new = [].
Proof.
  unfold attempt, bind, ret. intros Hrun.
  destruct (truthy (pre_task_hook config)).
  - destruct (call PreHook _ _ _ _ _ s) as [[r0 s0]|] eqn:Hpre; [|discriminate].
    apply call_inv in Hpre. destruct Hpre as (w0 & _ & ->).
    destruct (call Main _ _ _ _ _ _) as [[r1 s1]|] eqn:Hmain; [|discriminate].
    apply call_inv in Hmain. destruct Hmain as (w1 & _ & ->).
    destruct (truthy (post_task_hook config)).
    + destruct (call PostHook _ _ _ _ _ _) as [[r2 s2]|] eqn:Hpost; [|discriminate].
      apply call_inv in Hpost. destruct Hpost as (w2 & _ & ->).
      inversion Hrun; subst. simpl. eexists. split.
      * rewrite <- !app_assoc. reflexivity.
      * simpl. auto.
    + inversion Hrun; subst. simpl. eexists. split.
      * rewrite <- !app_assoc. reflexivity.
      * simpl. auto.
  - destruct (call Main _ _ _ _ _ _) as [[r1 s1]|] eqn:Hmain; [|discriminate].
    apply call_inv in Hmain. destruct Hmain as (w1 & _ & ->).
    destruct (truthy (post_task_hook config)).
    + destruct (call PostHook _ _ _ _ _ _) as [[r2 s2]|] eqn:Hpost; [|discriminate].
      apply call_inv in Hpost. destruct Hpost as (w2 & _ & ->).
      inversion Hrun; subst. simpl. eexists. split.
      * rewrite <- !app_assoc. reflexivity.
      * simpl. auto.
    + inversion Hrun; subst. simpl. eexists. split.
      * reflexivity.
      * simpl. auto.
Qed.

(** The three branches of lines 119-136. *)
Lemma react_inv (n : Z) (t : string) (r : Outcome) (s : St W) (f : Flow) (s' : St W) :
  react config dirname env n t r s = Some (f, s') ->
  match r with
  | OK => f = Continue /\ s' = s
  | RETRY =>
      if n =? ts_max_tries (task_settings config t) then
        f = ReturnFalse /\
        exists rh w', run_task HaltCmd (halt_cmd config dirname) env
                               (ts_max_time (task_settings config t)) (fst s) = Some (rh, w') /\
                      s' = (w', snd s ++ [halt_run config dirname n t rh])
      else
        f = Break /\
        exists w', sleep (ts_sleep_time (task_settings config t)) (fst s) = Some w' /\
                   s' = (w', snd s ++ [Slept (ts_sleep_time (task_settings config t))])
  | HALT =>
      f = ReturnFalse /\
      exists rh w', run_task HaltCmd (halt_cmd config dirname) env
                             (ts_max_time (task_settings config t)) (fst s) = Some (rh, w') /\
                    s' = (w', snd s ++ [halt_run config dirname n t rh])
  end.
Proof.
  unfold react, bind, ret. destruct r.
  - intros Heq. inversion Heq; auto.
  - destruct (n =? ts_max_tries (task_settings config t)).
    + destruct (call HaltCmd _ _ _ _ _ s) as [[rh s0]|] eqn:Hhalt; [|discriminate].
      apply call_inv in Hhalt. destruct Hhalt as (w0 & Hrun & ->).
      intros Heq. inversion Heq; subst. split; [reflexivity|]. eauto.
    + destruct (pause _ s) as [[u s0]|] eqn:Hpause; [|discriminate].
      apply pause_inv in Hpause. destruct Hpause as (w0 & Hrun & ->).
      intros Heq. inversion Heq; subst. split; [reflexivity|]. eauto.
  - destruct (call HaltCmd _ _ _ _ _ s) as [[rh s0]|] eqn:Hhalt; [|discriminate].
    apply call_inv in Hhalt. destruct Hhalt as (w0 & Hrun & ->).
    intros Heq. inversion Heq; subst. split; [reflexivity|]. eauto.
Qed.

Lemma for_tasks_cons (n : Z) (t : string) (rest : list string) (s : St W) :
  for_tasks config dirname env n (t :: rest) s =
  match attempt config dirname env n t s with
  | Some (r, s1) =>
      match react config dirname env n t r s1 with
      | Some (Continue, s2) => for_tasks config dirname env n rest s2
      | Some (Break, s2) => Some (Abandoned, s2)
      | Some (ReturnFalse, s2) => Some (Aborted, s2)
      | None => None
      end
  | None => None
  end.
Proof.
  simpl. unfold bind at 1.
  destruct (attempt config dirname env n t s) as [[r s1]|]; [|reflexivity].
  unfold bind at 1.
  destruct (react config dirname env n t r s1) as [[[| |] s2]|]; reflexivity.
Qed.

Lemma for_tries_cons (n : Z) (later : list Z) (tasks : list string) (s : St W) :
  for_tries config dirname env (n :: later) tasks s =
  match for_tasks config dirname env n tasks s with
  | Some (Completed, s1) => Some (RTrue, s1)
  | Some (Aborted, s1) => Some (RFalse, s1)
  | Some (Abandoned, s1) => for_tries config dirname env later tasks s1
  | None => None
  end.
Proof.
  simpl. unfold bind at 1.
  destruct (for_tasks config dirname env n tasks s) as [[[| |] s1]|]; reflexivity.
Qed.

(** How a pass can end, and what it leaves in the record. *)
Lemma for_tasks_shape (n : Z) :
  forall tasks s e s',
    for_tasks config dirname env n tasks s = Some (e, s') ->
    exists new, snd s' = snd s ++ new /\ pass_shape config dirname n tasks e new.
Proof.
  induction tasks as [|t rest IH]; intros s e s' Hrun.
  - simpl in Hrun. inversion Hrun; subst. exists []. rewrite app_nil_r.
    split; [reflexivity|]. unfold pass_shape. simpl. auto.
  - rewrite for_tasks_cons in Hrun.
    destruct (attempt config dirname env n t s) as [[r s1]|] eqn:Ha; [|discriminate].
    destruct (react config dirname env n t r s1) as [[f s2]|] eqn:Hr; [|discriminate].
    apply attempt_record in Ha. destruct Ha as (new1 & Hlog1 & Hm1 & Hh1 & Hs1 & Hi1).
    apply react_inv in Hr. destruct r.
    + destruct Hr as [-> ->]. apply IH in Hrun.
      destruct Hrun as (new2 & Hlog2 & Hit & Hshape).
      exists (new1 ++ new2). split; [rewrite Hlog2, Hlog1, app_assoc; reflexivity|].
      split; [rewrite iterations_app, Hi1, Hit; reflexivity|].
      destruct e.
      * destruct Hshape as (Hm & Hh & Hs).
        rewrite !ran_app, slept_app, Hm1, Hm, Hh1, Hh, Hs1, Hs. simpl. auto.
      * destruct Hshape as (pre & t' & post & front & -> & Hm & Hne & Hh & -> & Hsf).
        exists (t :: pre), t', post, (new1 ++ front).
        split; [reflexivity|].
        split; [rewrite ran_app, Hm1, Hm; reflexivity|].
        split; [exact Hne|].
        split; [rewrite ran_app, Hh1, Hh; reflexivity|].
        split; [apply app_assoc|].
        rewrite slept_app, Hs1, Hsf. reflexivity.
      * destruct Hshape as (pre & t' & post & r & rh & front & -> & Hm & Hcase & -> & Hhf & Hs).
        exists (t :: pre), t', post, r, rh, (new1 ++ front).
        split; [reflexivity|].
        split; [rewrite ran_app, Hm1, Hm; reflexivity|].
        split; [exact Hcase|].
        split; [apply app_assoc|].
        split; [rewrite ran_app, Hh1, Hhf; reflexivity|].
        rewrite slept_app, Hs1, Hs. reflexivity.
    + destruct (Z.eqb_spec n (ts_max_tries (task_settings config t))) as [Heq|Hne].
      * destruct Hr as (-> & rh & w' & _ & ->). inversion Hrun; subst e s'. simpl.
        exists (new1 ++ [halt_run config dirname n t rh]).
        split; [rewrite Hlog1, app_assoc; reflexivity|].
        split; [rewrite iterations_app, Hi1; reflexivity|].
        exists [], t, rest, RETRY, rh, new1.
        rewrite ran_app, slept_app, Hm1, Hs1, Hh1. simpl. auto 10.
      * destruct Hr as (-> & w' & _ & ->). inversion Hrun; subst e s'. simpl.
        exists (new1 ++ [Slept (ts_sleep_time (task_settings config t))]).
        split; [rewrite Hlog1, app_assoc; reflexivity|].
        split; [rewrite iterations_app, Hi1; reflexivity|].
        exists [], t, rest, new1.
        rewrite !ran_app, Hm1, Hs1, Hh1. simpl. auto 10.
    + destruct Hr as (-> & rh & w' & _ & ->). inversion Hrun; subst e s'. simpl.
      exists (new1 ++ [halt_run config dirname n t rh]).
      split; [rewrite Hlog1, app_assoc; reflexivity|].
      split; [rewrite iterations_app, Hi1; reflexivity|].
      exists [], t, rest, HALT, rh, new1.
      rewrite ran_app, slept_app, Hm1, Hs1, Hh1. simpl. auto 10.
Qed.

(** A completed pass over a prefix leaves the rest of the pass to run. *)
Lemma for_tasks_app (n : Z) :
  forall pre rest s s1,
    for_tasks config dirname env n pre s = Some (Completed, s1) ->
    for_tasks config dirname env n (pre ++ rest) s =
    for_tasks config dirname env n rest s1.
Proof.
  induction pre as [|t pre IH]; intros rest s s1 Hpre.
  - simpl in Hpre. inversion Hpre; subst. reflexivity.
  - rewrite for_tasks_cons in Hpre. simpl app. rewrite for_tasks_cons.
    destruct (attempt config dirname env n t s) as [[r s0]|]; [|discriminate].
    destruct (react config dirname env n t r s0) as [[[| |] s2]|]; try discriminate.
    now apply IH.
Qed.

Lemma range_cons (a b : Z) : a < b -> range a b = a :: range (a + 1) b.
Proof.
  intros Hlt. unfold range.
  replace (Z.to_nat (b - a)) with (S (Z.to_nat (b - (a + 1)))) by lia.
  simpl. f_equal; [lia|].
  rewrite <- seq_shift, map_map. apply map_ext. intros i. lia.
Qed.

Lemma range_In (a b n : Z) : In n (range a b) <-> a <= n < b.
Proof.
  unfold range. rewrite in_map_iff. split.
  - intros (i & <- & Hin). apply in_seq in Hin. lia.
  - intros Hn. exists (Z.to_nat (n - a)). split; [lia|]. apply in_seq. lia.
Qed.

Lemma task_of_oks (n : Z) (tasks : list string) :
  map task_of (oks config dirname n tasks) = tasks.
Proof.
  unfold oks. rewrite map_map. simpl. apply map_id.
Qed.

Lemma outcome_of_oks (n : Z) (tasks : list string) (ev : Event) :
  In ev (oks config dirname n tasks) -> outcome_of ev = OK.
Proof.
  unfold oks. rewrite in_map_iff. intros (t & <- & _). reflexivity.
Qed.

(** The pass stops at a task that returns [HALT], or [RETRY] on its
    threshold: one halt command, then [return False]. *)
Lemma stop_at (n : Z) (later : list Z) (pre : list string) (t : string)
      (post : list string) (s s1 s2 : St W) (r rh : Outcome) (w3 : W) :
  for_tasks config dirname env n pre s = Some (Completed, s1) ->
  attempt config dirname env n t s1 = Some (r, s2) ->
  r = HALT \/ (r = RETRY /\ n = ts_max_tries (task_settings config t)) ->
  run_task HaltCmd (halt_cmd config dirname) env
           (ts_max_time (task_settings config t)) (fst s2) = Some (rh, w3) ->
  let s3 := (w3, snd s2 ++ [halt_run config dirname n t rh]) in
  for_tasks config dirname env n (pre ++ t :: post) s = Some (Aborted, s3) /\
  for_tries config dirname env (n :: later) (pre ++ t :: post) s = Some (RFalse, s3) /\
  exists new,
    snd s3 = snd s ++ new /\
    ran HaltCmd new = [halt_run config dirname n t rh] /\
    ran Main new = oks config dirname n pre ++ [main_run config dirname n t r] /\
    slept new = [].
Proof.
  intros Hpre Hatt Hcase Hhalt s3.
  assert (Hpass : for_tasks config dirname env n (pre ++ t :: post) s = Some (Aborted, s3)).
  { rewrite (for_tasks_app n pre (t :: post) s s1 Hpre), for_tasks_cons, Hatt.
    unfold react, bind, ret.
    destruct Hcase as [->|[-> Heq]].
    - rewrite (call_run _ _ _ _ _ _ _ _ Hhalt). reflexivity.
    - apply Z.eqb_eq in Heq. rewrite Heq.
      rewrite (call_run _ _ _ _ _ _ _ _ Hhalt). reflexivity. }
  split; [exact Hpass|]. split; [rewrite for_tries_cons, Hpass; reflexivity|].
  apply for_tasks_shape in Hpre. destruct Hpre as (new0 & Hlog0 & _ & Hm0 & Hh0 & Hs0).
  apply attempt_record in Hatt. destruct Hatt as (new1 & Hlog1 & Hm1 & Hh1 & Hs1 & _).
  exists (new0 ++ new1 ++ [halt_run config dirname n t rh]).
  split; [subst s3; simpl; rewrite Hlog1, Hlog0, <- !app_assoc; reflexivity|].
  rewrite !ran_app, !slept_app, Hm0, Hh0, Hs0, Hm1, Hh1, Hs1. simpl. auto.
Qed.

(** The pass is abandoned at a task that returns [RETRY] away from its
    threshold: one sleep, then [break]. *)
Lemma abandon_at (n : Z) (pre : list string) (t : string) (post : list string)
      (s s1 s2 : St W) (w3 : W) :
  for_tasks config dirname env n pre s = Some (Completed, s1) ->
  attempt config dirname env n t s1 = Some (RETRY, s2) ->
  n <> ts_max_tries (task_settings config t) ->
  sleep (ts_sleep_time (task_settings config t)) (fst s2) = Some w3 ->
  for_tasks config dirname env n (pre ++ t :: post) s =
  Some (Abandoned, (w3, snd s2 ++ [Slept (ts_sleep_time (task_settings config t))])).
Proof.
  intros Hpre Hatt Hne Hsleep.
  rewrite (for_tasks_app n pre (t :: post) s s1 Hpre), for_tasks_cons, Hatt.
  unfold react, bind, ret. apply Z.eqb_neq in Hne. rewrite Hne.
  unfold pause. rewrite Hsleep. reflexivity.
Qed.

(** C1: in a pass where the tasks before [t] returned [OK] and [t] yields
    [RETRY] while [try_num] equals the effective [max_tries] of [t], the halt
    command is invoked exactly once (the path is the directory joined with
    the halt task name, wrapped by the global interpreter when one is set,
    run with the effective [max_time] of [t]) and [False] is returned at
    once: no task after [t] is run and no further value of [try_num] is
    tried. *)
Theorem retry_on_threshold_halts (n : Z) (later : list Z) (pre : list string)
        (t : string) (post : list string) (s s1 s2 : St W) (rh : Outcome) (w3 : W) :
  for_tasks config dirname env n pre s = Some (Completed, s1) ->
  attempt config dirname env n t s1 = Some (RETRY, s2) ->
  n = ts_max_tries (task_settings config t) ->
  run_task HaltCmd (halt_cmd config dirname) env
           (ts_max_time (task_settings config t)) (fst s2) = Some (rh, w3) ->
  let halted := Ran HaltCmd t n
                    (if truthy (interpreter config)
                     then Split (text (interpreter config))
                                (QPath (path_join dirname (halt_task config)))
                     else Direct (path_join dirname (halt_task config)))
                    (ts_max_time (task_settings config t)) rh in
  let s3 := (w3, snd s2 ++ [halted]) in
  for_tasks config dirname env n (pre ++ t :: post) s = Some (Aborted, s3) /\
  for_tries config dirname env (n :: later) (pre ++ t :: post) s = Some (RFalse, s3) /\
  exists new,
    snd s3 = snd s ++ new /\
    ran HaltCmd new = [halted] /\
    ran Main new = oks config dirname n pre ++ [main_run config dirname n t RETRY] /\
    slept new = [].
Proof.
  intros Hpre Hatt Hn Hhalt.
  exact (stop_at n later pre t post s s1 s2 RETRY rh w3 Hpre Hatt
                 (or_intror (conj eq_refl Hn)) Hhalt).
Qed.

(** C5: in a pass where the tasks before [t] returned [OK] and [t] yields
    [HALT], the halt command is invoked exactly once and [False] is returned
    at once, whatever the value of [try_num]: no task after [t] is run and
    no further value of [try_num] is tried. *)
Theorem halt_outcome_halts (n : Z) (later : list Z) (pre : list string)
        (t : string) (post : list string) (s s1 s2 : St W) (rh : Outcome) (w3 : W) :
  for_tasks config dirname env n pre s = Some (Completed, s1) ->
  attempt config dirname env n t s1 = Some (HALT, s2) ->
  run_task HaltCmd (halt_cmd config dirname) env
           (ts_max_time (task_settings config t)) (fst s2) = Some (rh, w3) ->
  let s3 := (w3, snd s2 ++ [halt_run config dirname n t rh]) in
  for_tasks config dirname env n (pre ++ t :: post) s = Some (Aborted, s3) /\
  for_tries config dirname env (n :: later) (pre ++ t :: post) s = Some (RFalse, s3) /\
  exists new,
    snd s3 = snd s ++ new /\
    ran HaltCmd new = [halt_run config dirname n t rh] /\
    ran Main new = oks config dirname n pre ++ [main_run config dirname n t HALT] /\
    slept new = [].
Proof.
  intros Hpre Hatt Hhalt.
  exact (stop_at n later pre t post s s1 s2 HALT rh w3 Hpre Hatt (or_introl eq_refl) Hhalt).
Qed.

(** The retry rule, pass by pass.  In pass [n] of [1 .. max_tries], when the
    tasks before [t] returned [OK] and [t] yields [RETRY] while [n] is below
    the effective [max_tries] of [t], the engine sleeps for the effective
    [sleep_time] of [t] and abandons the rest of the pass.  When [n] is
    below the global [max_tries], the run goes on with [try_num = n + 1]
    over the whole task list from its first task, the tasks that had
    succeeded included.  When [n] is the global [max_tries], the run is over
    right after the sleep: [None] is returned. *)
Theorem retry_below_threshold_restarts (n : Z) (pre : list string) (t : string)
        (post : list string) (s s1 s2 : St W) (w3 : W) :
  1 <= n <= max_tries config ->
  for_tasks config dirname env n pre s = Some (Completed, s1) ->
  attempt config dirname env n t s1 = Some (RETRY, s2) ->
  n < ts_max_tries (task_settings config t) ->
  sleep (ts_sleep_time (task_settings config t)) (fst s2) = Some w3 ->
  let s3 := (w3, snd s2 ++ [Slept (ts_sleep_time (task_settings config t))]) in
  for_tasks config dirname env n (pre ++ t :: post) s = Some (Abandoned, s3) /\
  (n < max_tries config ->
   for_tries config dirname env (range n (max_tries config + 1)) (pre ++ t :: post) s =
   for_tries config dirname env (n + 1 :: range (n + 2) (max_tries config + 1))
             (pre ++ t :: post) s3) /\
  (n = max_tries config ->
   for_tries config dirname env (range n (max_tries config + 1)) (pre ++ t :: post) s =
   Some (RNone, s3)).
Proof.
  intros Hn Hpre Hatt Hbelow Hsleep s3.
  assert (Hpass : for_tasks config dirname env n (pre ++ t :: post) s = Some (Abandoned, s3)).
  { apply (abandon_at n pre t post s s1 s2 w3 Hpre Hatt); [lia|exact Hsleep]. }
  split; [exact Hpass|]. split.
  - intros Hlt. rewrite (range_cons n) by lia. rewrite for_tries_cons, Hpass.
    rewrite (range_cons (n + 1)) by lia.
    replace (n + 1 + 1) with (n + 2) by lia. reflexivity.
  - intros Hlast. rewrite (range_cons n) by lia. rewrite for_tries_cons, Hpass.
    unfold range. replace (Z.to_nat (max_tries config + 1 - (n + 1))) with 0%nat by lia.
    reflexivity.
Qed.

(** The tasks run in a pass are an initial segment of the task list. *)
Lemma pass_prefix (n : Z) (tasks : list string) (e : PassEnd) (new : list Event) :
  pass_shape config dirname n tasks e new ->
  exists rest, tasks = map task_of (ran Main new) ++ rest.
Proof.
  intros (_ & Hshape). destruct e.
  - destruct Hshape as (Hm & _ & _). rewrite Hm, task_of_oks.
    exists []. now rewrite app_nil_r.
  - destruct Hshape as (pre & t & post & front & -> & Hm & _).
    rewrite Hm, map_app, task_of_oks. simpl.
    exists post. now rewrite <- app_assoc.
  - destruct Hshape as (pre & t & post & r & rh & front & -> & Hm & _).
    rewrite Hm, map_app, task_of_oks. simpl.
    exists post. now rewrite <- app_assoc.
Qed.

(** C10: a pass in which every task returns [OK] makes the run succeed, and
    a pass ends in one of three ways only: every task ran and returned [OK];
    it was abandoned after a [RETRY] away from the threshold; or it was
    aborted by the halt command after a [HALT] or a [RETRY] on the
    threshold.  In each case the tasks that ran are an initial segment of
    the task list, in its order. *)
Theorem pass_endings (n : Z) (later : list Z) (tasks : list string)
        (s : St W) (e : PassEnd) (s' : St W) :
  for_tasks config dirname env n tasks s = Some (e, s') ->
  exists new,
    snd s' = snd s ++ new /\
    pass_shape config dirname n tasks e new /\
    (exists rest, tasks = map task_of (ran Main new) ++ rest) /\
    ((forall ev, In ev (ran Main new) -> outcome_of ev = OK) ->
     e = Completed /\
     map task_of (ran Main new) = tasks /\
     for_tries config dirname env (n :: later) tasks s = Some (RTrue, s')).
Proof.
  intros Hrun. destruct (for_tasks_shape n tasks s e s' Hrun) as (new & Hlog & Hshape).
  exists new. split; [exact Hlog|]. split; [exact Hshape|].
  destruct Hshape as (_ & Hshape). destruct e.
  - destruct Hshape as (Hm & _ & _). rewrite Hm, task_of_oks. split.
    + exists []. now rewrite app_nil_r.
    + intros _. split; [reflexivity|]. split; [reflexivity|].
      rewrite for_tries_cons, Hrun. reflexivity.
  - destruct Hshape as (pre & t & post & front & -> & Hm & _).
    rewrite Hm, map_app, task_of_oks. simpl. split.
    + exists post. now rewrite <- app_assoc.
    + intros Hall. specialize (Hall (main_run config dirname n t RETRY)).
      simpl in Hall.
      assert (RETRY = OK) by (apply Hall; apply in_or_app; right; left; reflexivity).
      discriminate.
  - destruct Hshape as (pre & t & post & r & rh & front & -> & Hm & Hcase & _).
    rewrite Hm, map_app, task_of_oks. simpl. split.
    + exists post. now rewrite <- app_assoc.
    + intros Hall. specialize (Hall (main_run config dirname n t r)).
      simpl in Hall.
      assert (r = OK) by (apply Hall; apply in_or_app; right; left; reflexivity).
      destruct Hcase as [->|[-> _]]; discriminate.
Qed.

End EngineFacts.

(** ** Whole runs: [process_taskdir] and [runner] *)

Section RunFacts.

Context {W : Type} {world : World W}.
Variables (config : Config) (dirname : string).

(** What a whole run of the two loops leaves in the record: task entries
    for tasks of the list only, no halt command unless [False] is returned,
    and then exactly one. *)
Lemma for_tries_record (env : Environ) (tasks : list string) :
  forall tries s v s',
    for_tries config dirname env tries tasks s = Some (v, s') ->
    exists new,
      snd s' = snd s ++ new /\
      iterations new = [] /\
      (forall ev, In ev (ran Main new) -> In (task_of ev) tasks) /\
      List.length (ran HaltCmd new) = match v with RFalse => 1%nat | _ => 0%nat end.
Proof.
  induction tries as [|n later IH]; intros s v s' Hrun.
  - simpl in Hrun. inversion Hrun; subst. exists []. rewrite app_nil_r.
    simpl. repeat split; auto. intros ev [].
  - rewrite for_tries_cons in Hrun.
    destruct (for_tasks config dirname env n tasks s) as [[e s1]|] eqn:Hpass; [|discriminate].
    destruct (for_tasks_shape config dirname env n tasks s e s1 Hpass)
      as (new1 & Hlog1 & Hpshape).
    destruct (pass_prefix config dirname n tasks e new1 Hpshape) as (rest & Hprefix).
    destruct Hpshape as (Hit1 & Hshape).
    assert (Hin1 : forall ev, In ev (ran Main new1) -> In (task_of ev) tasks).
    { intros ev Hev. rewrite Hprefix. apply in_or_app. left. now apply in_map. }
    destruct e.
    + inversion Hrun; subst. exists new1. destruct Hshape as (_ & Hh & _).
      rewrite Hh. simpl. auto.
    + apply IH in Hrun. destruct Hrun as (new2 & Hlog2 & Hit2 & Hin2 & Hlen2).
      destruct Hshape as (pre & t & post & front & _ & _ & _ & Hh & _).
      exists (new1 ++ new2).
      split; [rewrite Hlog2, Hlog1, app_assoc; reflexivity|].
      split; [rewrite iterations_app, Hit1, Hit2; reflexivity|].
      split.
      * intros ev Hev. rewrite ran_app in Hev. apply in_app_or in Hev.
        destruct Hev; auto.
      * rewrite ran_app, Hh. exact Hlen2.
    + inversion Hrun; subst. exists new1.
      destruct Hshape as (pre & t & post & r & rh & front & _ & _ & _ & -> & Hhf & _).
      split; [exact Hlog1|]. split; [exact Hit1|]. split; [exact Hin1|].
      rewrite ran_app, Hhf. reflexivity.
Qed.

Lemma process_taskdir_record (s : St W) (v : Ret) (s' : St W) :
  process_taskdir config dirname s = Some (v, s') ->
  exists order new,
    resolved_order config dirname (fst s) = Some order /\
    snd s' = snd s ++ new /\
    iterations new = [] /\
    (forall ev, In ev (ran Main new) -> In (task_of ev) order) /\
    List.length (ran HaltCmd new) = match v with RFalse => 1%nat | _ => 0%nat end.
Proof.
  unfold process_taskdir.
  destruct (resolved_order config dirname (fst s)) as [order|]; [|discriminate].
  intros Hrun. apply for_tries_record in Hrun.
  destruct Hrun as (new & Hlog & Hit & Hin & Hlen).
  exists order, new. repeat split; auto.
Qed.



(** C8: the halt task is never part of the Resolved Order: it is removed
    from the names found in the directory (which are pairwise distinct)
    before the dependencies are resolved, so no pass ever runs it as an
    ordinary task. *)
Theorem halt_task_not_scheduled (s : St W) :
  NoDup (list_directory dirname (fst s)) ->
  (forall order, resolved_order config dirname (fst s) = Some order ->
                 ~ In (halt_task config) order) /\
  (forall v s', process_taskdir config dirname s = Some (v, s') ->
                exists new, snd s' = snd s ++ new /\
                            forall ev, In ev (ran Main new) ->
                                       task_of ev <> halt_task config).
Proof.
  intros Hnd.
  assert (Horder : forall order, resolved_order config dirname (fst s) = Some order ->
                                 ~ In (halt_task config) order).
  { intros order Hres Hin. unfold resolved_order in Hres.
    pose proof (sequential_ordering_names _ _ Hres _ Hin) as Hname.
    apply discover_names in Hname. destruct Hname as [_ Hne]. now apply Hne. }
  split; [exact Horder|].
  intros v s' Hrun. apply process_taskdir_record in Hrun.
  destruct Hrun as (order & new & Hres & Hlog & _ & Hin & _).
  exists new. split; [exact Hlog|].
  intros ev Hev Heq. apply (Horder order Hres). rewrite <- Heq. now apply Hin.
Qed.

End RunFacts.

(** ** The run driver *)

Section RunnerFacts.

Context {W : Type} {world : World W}.
Variables (config : Config) (taskdir : string).

Lemma runner_loop_step (fuel : nat) (times : option Z) (t : Z) (s : St W) :
  runner_loop (S fuel) config taskdir times t s =
  if past_limit times (t + 1) then Some (Finished, s)
  else match process_taskdir config taskdir (fst s, snd s ++ [Iteration (t + 1)]) with
       | Some (v, s1) =>
           if ret_truthy v then runner_loop fuel config taskdir times (t + 1) s1
           else Some (SysExit 1, s1)
       | None => None
       end.
Proof.
  simpl. destruct (past_limit times (t + 1)); [reflexivity|].
  unfold bind, note at 1.
  destruct (process_taskdir config taskdir (fst s, snd s ++ [Iteration (t + 1)]))
    as [[v s1]|]; [|reflexivity].
  destruct (ret_truthy v); reflexivity.
Qed.

(** The first iteration that reports failure ends the process with status 1;
    nothing more is done. *)
Lemma runner_exits_on_first_failure (fuel : nat) (times : option Z) (t : Z)
      (s : St W) (v : Ret) (s1 : St W) :
  past_limit times (t + 1) = false ->
  process_taskdir config taskdir (fst s, snd s ++ [Iteration (t + 1)]) = Some (v, s1) ->
  ret_truthy v = false ->
  runner_loop (S fuel) config taskdir times t s = Some (SysExit 1, s1).
Proof.
  intros Hlimit Hrun Hfalsy. rewrite runner_loop_step, Hlimit, Hrun, Hfalsy. reflexivity.
Qed.

(** With a positive count [N], at most [N] iterations are started. *)
Lemma runner_at_most (N : Z) :
  0 < N ->
  forall fuel t s r s',
    0 <= t ->
    runner_loop fuel config taskdir (Some N) t s = Some (r, s') ->
    exists new,
      snd s' = snd s ++ new /\
      Z.of_nat (List.length (iterations new)) <= Z.max 0 (N - t).
Proof.
  intros HN. induction fuel as [|fuel IH]; intros t s r s' Ht Hrun.
  - simpl in Hrun. inversion Hrun; subst. exists []. rewrite app_nil_r.
    simpl. split; [reflexivity|lia].
  - rewrite runner_loop_step in Hrun. unfold past_limit in Hrun.
    destruct (Z.eqb_spec N 0) as [|_]; [lia|].
    destruct (Z.gtb_spec (t + 1) N) as [Hgt|Hle].
    + inversion Hrun; subst. exists []. rewrite app_nil_r.
      simpl. split; [reflexivity|lia].
    + destruct (process_taskdir config taskdir (fst s, snd s ++ [Iteration (t + 1)]))
        as [[v s1]|] eqn:Hp; [|discriminate].
      apply process_taskdir_record in Hp.
      destruct Hp as (order & new1 & _ & Hlog1 & Hit1 & _). simpl in Hlog1.
      destruct (ret_truthy v).
      * apply IH in Hrun; [|lia]. destruct Hrun as (new2 & Hlog2 & Hlen2).
        exists (Iteration (t + 1) :: new1 ++ new2). split.
        -- rewrite Hlog2, Hlog1, <- !app_assoc. reflexivity.
        -- simpl. rewrite iterations_app, Hit1. simpl. lia.
      * inversion Hrun; subst. exists (Iteration (t + 1) :: new1). split.
        -- rewrite Hlog1, <- app_assoc. reflexivity.
        -- simpl. rewrite Hit1. simpl. lia.
Qed.

(** With a positive count [N] and iterations that all succeed, exactly [N]
    iterations are made and [runner] returns. *)
Lemma runner_finishes (N : Z) :
  0 < N ->
  (forall s0, exists s1, process_taskdir config taskdir s0 = Some (RTrue, s1)) ->
  forall k fuel t s,
    0 <= t -> N - t = Z.of_nat k -> (k < fuel)%nat ->
    exists s' new,
      runner_loop fuel config taskdir (Some N) t s = Some (Finished, s') /\
      snd s' = snd s ++ new /\
      List.length (iterations new) = k.
Proof.
  intros HN Hok. induction k as [|k IH]; intros fuel t s Ht Hk Hfuel.
  - destruct fuel as [|fuel]; [lia|]. rewrite runner_loop_step. unfold past_limit.
    destruct (Z.eqb_spec N 0) as [|_]; [lia|].
    destruct (Z.gtb_spec (t + 1) N) as [_|Hle]; [|lia].
    exists s, []. rewrite app_nil_r. auto.
  - destruct fuel as [|fuel]; [lia|]. rewrite runner_loop_step. unfold past_limit.
    destruct (Z.eqb_spec N 0) as [|_]; [lia|].
    destruct (Z.gtb_spec (t + 1) N) as [Hgt|_]; [lia|].
    destruct (Hok (fst s, snd s ++ [Iteration (t + 1)])) as [s1 Hp]. rewrite Hp. simpl.
    apply process_taskdir_record in Hp.
    destruct Hp as (order & new1 & _ & Hlog1 & Hit1 & _). simpl in Hlog1.
    destruct (IH fuel (t + 1) s1) as (s' & new2 & Hrun & Hlog2 & Hlen2); [lia|lia|lia|].
    exists s', (Iteration (t + 1) :: new1 ++ new2). split; [exact Hrun|]. split.
    + rewrite Hlog2, Hlog1, <- !app_assoc. reflexivity.
    + simpl. rewrite iterations_app, Hit1. simpl. now rewrite Hlen2.
Qed.

(** Without a count, and also with a count of 0, the loop never leaves by
    itself: as long as iterations succeed, every unit of fuel is one more
    iteration. *)
Lemma runner_unbounded (times : option Z) :
  times = None \/ times = Some 0 ->
  (forall s0, exists s1, process_taskdir config taskdir s0 = Some (RTrue, s1)) ->
  forall fuel t s,
    exists s' new,
      runner_loop fuel config taskdir times t s = Some (StillLooping, s') /\
      snd s' = snd s ++ new /\
      List.length (iterations new) = fuel.
Proof.
  intros Htimes Hok.
  assert (Hlimit : forall t, past_limit times t = false).
  { intros t. destruct Htimes as [->| ->]; reflexivity. }
  induction fuel as [|fuel IH]; intros t s.
  - exists s, []. rewrite app_nil_r. auto.
  - rewrite runner_loop_step, Hlimit.
    destruct (Hok (fst s, snd s ++ [Iteration (t + 1)])) as [s1 Hp]. rewrite Hp. simpl.
    apply process_taskdir_record in Hp.
    destruct Hp as (order & new1 & _ & Hlog1 & Hit1 & _). simpl in Hlog1.
    destruct (IH (t + 1) s1) as (s' & new2 & Hrun & Hlog2 & Hlen2).
    exists s', (Iteration (t + 1) :: new1 ++ new2). split; [exact Hrun|]. split.
    + rewrite Hlog2, Hlog1, <- !app_assoc. reflexivity.
    + simpl. rewrite iterations_app, Hit1. simpl. now rewrite Hlen2.
Qed.

End RunnerFacts.

(** ** Machines whose processes exit at once *)

Section InstantWorld.

Import Supervisor.

Variables (fuel : nat) (table : Cmd -> Z) (files : string -> list string)
          (environ : Environ).

Local Abbreviation IW := (HostWorld (S fuel) (instant table) files environ).

Lemma run_task_instant (c : Cmd) (env : Environ) (mt : Z) (h : Host) :
  Supervisor.run_task (S fuel) (instant table) c env mt h =
  Some (classify (table c), emit (Reap (spawned h) (table c)) (started c h)).
Proof.
  unfold Supervisor.run_task. simpl. unfold poll. simpl.
  assert (Hle : Qle_bool (clock h + 0) (clock h) = true).
  { apply Qle_bool_iff. lra. }
  rewrite Hle. reflexivity.
Qed.

Lemma instant_call (role : Role) (t : string) (n : Z) (c : Cmd) (env : Environ)
      (mt : Z) (s : St Host) :
  @call Host IW role t n c env mt s =
  Some (classify (table c),
        (emit (Reap (spawned (fst s)) (table c)) (started c (fst s)),
         snd s ++ [Ran role t n c mt (classify (table c))])).
Proof.
  unfold call. simpl. rewrite run_task_instant. reflexivity.
Qed.

Lemma instant_attempt (config : Config) (dirname : string) (env : Environ) (n : Z)
      (t : string) (s : St Host) :
  exists s1,
    @attempt Host IW config dirname env n t s =
    Some (classify (table (task_cmd dirname (task_settings config t) t)), s1).
Proof.
  unfold attempt, bind, ret.
  destruct (truthy (pre_task_hook config)); destruct (truthy (post_task_hook config));
    rewrite ?instant_call; eexists; reflexivity.
Qed.

Lemma instant_pass_ok (config : Config) (dirname : string) (env : Environ) (n : Z) :
  forall tasks,
    (forall t, In t tasks ->
               classify (table (task_cmd dirname (task_settings config t) t)) = OK) ->
    forall s, exists s1,
      @for_tasks Host IW config dirname env n tasks s = Some (Completed, s1).
Proof.
  induction tasks as [|t rest IH]; intros Hok s.
  - exists s. reflexivity.
  - rewrite for_tasks_cons.
    destruct (instant_attempt config dirname env n t s) as [s1 Ha].
    rewrite Ha, (Hok t (or_introl eq_refl)). simpl.
    apply IH. intros t' Ht'. apply Hok. now right.
Qed.

Lemma instant_run_ok (config : Config) (dirname : string) (order : list string) :
  1 <= max_tries config ->
  (forall h, @resolved_order Host IW config dirname h = Some order) ->
  (forall t, In t order ->
             classify (table (task_cmd dirname (task_settings config t) t)) = OK) ->
  forall s, exists s1, @process_taskdir Host IW config dirname s = Some (RTrue, s1).
Proof.
  intros Htries Horder Hok s. unfold process_taskdir. rewrite Horder.
  rewrite range_cons by lia. rewrite for_tries_cons.
  destruct (instant_pass_ok config dirname
              (env_update (@os_environ Host IW (fst s)) (get_env config)) 1 order Hok s)
    as [s1 Hpass].
  rewrite Hpass. eauto.
Qed.

End InstantWorld.

(** ** Hooks and the halt command do not steer the engine *)

Section Noninterference.

Context {W1 W2 : Type} (A : World W1) (B : World W2).
Variables (config : Config) (dirname : string).

(** [R] relates the two worlds as the runs proceed; [scheduled] holds of the
    tasks whose own invocations answer alike in related R worlds. *)
Variable R : W1 -> W2 -> Prop.
Variable scheduled : string -> Prop.

Hypothesis tasks_agree :
  forall t env w1 w2,
    scheduled t -> R w1 w2 ->
    same_answer R
      (@run_task W1 A Main (task_cmd dirname (task_settings config t) t) env
                 (ts_max_time (task_settings config t)) w1)
      (@run_task W2 B Main (task_cmd dirname (task_settings config t) t) env
                 (ts_max_time (task_settings config t)) w2).

Hypothesis sides_free :
  forall role c env mt w1 w2,
    role <> Main -> R w1 w2 ->
    any_answer R (@run_task W1 A role c env mt w1) (@run_task W2 B role c env mt w2).

Hypothesis sleeps_agree :
  forall secs w1 w2,
    R w1 w2 -> same_wake R (@sleep W1 A secs w1) (@sleep W2 B secs w2).

Hypothesis outside_agrees :
  forall w1 w2,
    R w1 w2 ->
    @list_directory W1 A dirname w1 = @list_directory W2 B dirname w2 /\
    @os_environ W1 A w1 = @os_environ W2 B w2.

Lemma same_flow_bind {X Y : Type} (c1 : M W1 X) (c2 : M W2 X)
      (k1 : X -> M W1 Y) (k2 : X -> M W2 Y) (s1 : St W1) (s2 : St W2) :
  same_flow R (c1 s1) (c2 s2) ->
  (forall a t1 t2, related R t1 t2 -> same_flow R (k1 a t1) (k2 a t2)) ->
  same_flow R (bind c1 k1 s1) (bind c2 k2 s2).
Proof.
  unfold bind. intros Hc Hk.
  destruct (c1 s1) as [[a1 t1]|]; destruct (c2 s2) as [[a2 t2]|]; simpl in Hc;
    try contradiction; [|exact I].
  destruct Hc as (-> & HR & Hlog). apply Hk. split; assumption.
Qed.

Lemma same_flow_ret {X : Type} (a : X) (s1 : St W1) (s2 : St W2) :
  related R s1 s2 -> same_flow R (ret a s1) (ret a s2).
Proof. intros [HR Hlog]. simpl. auto. Qed.

Lemma task_call_flow (n : Z) (t : string) (env : Environ) (s1 : St W1) (s2 : St W2) :
  scheduled t -> related R s1 s2 ->
  same_flow R
    (@call W1 A Main t n (task_cmd dirname (task_settings config t) t) env
           (ts_max_time (task_settings config t)) s1)
    (@call W2 B Main t n (task_cmd dirname (task_settings config t) t) env
           (ts_max_time (task_settings config t)) s2).
Proof.
  intros Hsched [HR Hlog]. unfold call.
  pose proof (tasks_agree t env (fst s1) (fst s2) Hsched HR) as Hans.
  unfold same_answer in Hans.
  destruct (@run_task W1 A Main _ env _ (fst s1)) as [[r1 w1]|];
    destruct (@run_task W2 B Main _ env _ (fst s2)) as [[r2 w2]|];
    try contradiction; [|exact I].
  destruct Hans as [-> HR']. simpl. split; [reflexivity|]. split; [exact HR'|].
  rewrite !map_app, Hlog. reflexivity.
Qed.

Lemma side_call_flow {X : Type} (x : X) (role : Role) (n : Z) (t : string) (c : Cmd)
      (env : Environ) (mt : Z) (s1 : St W1) (s2 : St W2) :
  role <> Main -> related R s1 s2 ->
  same_flow R
    ((@call W1 A role t n c env mt ;; ret x) s1)
    ((@call W2 B role t n c env mt ;; ret x) s2).
Proof.
  intros Hrole [HR Hlog]. unfold bind, call, ret.
  pose proof (sides_free role c env mt (fst s1) (fst s2) Hrole HR) as Hans.
  unfold any_answer in Hans.
  destruct (@run_task W1 A role c env mt (fst s1)) as [[r1 w1]|];
    destruct (@run_task W2 B role c env mt (fst s2)) as [[r2 w2]|];
    try contradiction; [|exact I].
  simpl. split; [reflexivity|]. split; [exact Hans|].
  rewrite !map_app, Hlog. destruct role; try reflexivity. contradiction.
Qed.

Lemma pause_flow {X : Type} (x : X) (secs : Z) (s1 : St W1) (s2 : St W2) :
  related R s1 s2 ->
  same_flow R ((@pause W1 A secs ;; ret x) s1) ((@pause W2 B secs ;; ret x) s2).
Proof.
  intros [HR Hlog]. unfold bind, pause, ret.
  pose proof (sleeps_agree secs (fst s1) (fst s2) HR) as Hw. unfold same_wake in Hw.
  destruct (@sleep W1 A secs (fst s1)) as [w1|];
    destruct (@sleep W2 B secs (fst s2)) as [w2|]; try contradiction; [|exact I].
  simpl. split; [reflexivity|]. split; [exact Hw|].
  rewrite !map_app, Hlog. reflexivity.
Qed.

Lemma attempt_flow (env : Environ) (n : Z) (t : string) (s1 : St W1) (s2 : St W2) :
  scheduled t -> related R s1 s2 ->
  same_flow R (@attempt W1 A config dirname env n t s1)
              (@attempt W2 B config dirname env n t s2).
Proof.
  intros Hsched Hrel. unfold attempt.
  apply same_flow_bind.
  - destruct (truthy (pre_task_hook config)).
    + apply side_call_flow; [discriminate|exact Hrel].
    + apply same_flow_ret. exact Hrel.
  - intros _ t1 t2 Hrel1. apply same_flow_bind.
    + apply task_call_flow; assumption.
    + intros r u1 u2 Hrel2. apply same_flow_bind.
      * destruct (truthy (post_task_hook config)).
        -- apply side_call_flow; [discriminate|exact Hrel2].
        -- apply same_flow_ret. exact Hrel2.
      * intros _ v1 v2 Hrel3. apply same_flow_ret. exact Hrel3.
Qed.

Lemma react_flow (env : Environ) (n : Z) (t : string) (r : Outcome)
      (s1 : St W1) (s2 : St W2) :
  related R s1 s2 ->
  same_flow R (@react W1 A config dirname env n t r s1)
              (@react W2 B config dirname env n t r s2).
Proof.
  intros Hrel. unfold react. destruct r.
  - apply same_flow_ret. exact Hrel.
  - destruct (n =? ts_max_tries (task_settings config t)).
    + apply side_call_flow; [discriminate|exact Hrel].
    + apply pause_flow. exact Hrel.
  - apply side_call_flow; [discriminate|exact Hrel].
Qed.

Lemma for_tasks_flow (env : Environ) (n : Z) :
  forall tasks s1 s2,
    (forall t, In t tasks -> scheduled t) -> related R s1 s2 ->
    same_flow R (@for_tasks W1 A config dirname env n tasks s1)
                (@for_tasks W2 B config dirname env n tasks s2).
Proof.
  induction tasks as [|t rest IH]; intros s1 s2 Hsched Hrel.
  - apply same_flow_ret. exact Hrel.
  - simpl. apply same_flow_bind.
    + apply attempt_flow; [apply Hsched; now left|exact Hrel].
    + intros r t1 t2 Hrel1. apply same_flow_bind.
      * apply react_flow. exact Hrel1.
      * intros f u1 u2 Hrel2. destruct f.
        -- apply IH; [intros t' Ht'; apply Hsched; now right|exact Hrel2].
        -- apply same_flow_ret. exact Hrel2.
        -- apply same_flow_ret. exact Hrel2.
Qed.

Lemma for_tries_flow (env : Environ) (tasks : list string) :
  (forall t, In t tasks -> scheduled t) ->
  forall tries s1 s2,
    related R s1 s2 ->
    same_flow R (@for_tries W1 A config dirname env tries tasks s1)
                (@for_tries W2 B config dirname env tries tasks s2).
Proof.
  intros Hsched. induction tries as [|n later IH]; intros s1 s2 Hrel.
  - apply same_flow_ret. exact Hrel.
  - simpl. apply same_flow_bind.
    + apply for_tasks_flow; assumption.
    + intros e t1 t2 Hrel1. destruct e.
      * apply same_flow_ret. exact Hrel1.
      * apply IH. exact Hrel1.
      * apply same_flow_ret. exact Hrel1.
Qed.

Lemma blind_keeps_tasks (l1 l2 : list Event) :
  map blind l1 = map blind l2 -> ran Main l1 = ran Main l2.
Proof.
  revert l2. induction l1 as [|e1 l1 IH]; intros [|e2 l2] Heq; try discriminate.
  - reflexivity.
  - simpl in Heq. inversion Heq as [[Hhd Htl]]. unfold ran. simpl.
    fold (ran Main l1). fold (ran Main l2). rewrite (IH l2 Htl).
    destruct e1 as [[| | |] ? ? ? ? ?| |]; destruct e2 as [[| | |] ? ? ? ? ?| |];
      simpl in *; try discriminate; try reflexivity.
    now inversion Hhd.
Qed.

(** C9: the outcomes of the pre-task hook, of the post-task hook and of
    the halt command are never inspected.  Take two runs in worlds where the
    tasks themselves answer alike, while hooks and halt commands may return
    anything (as long as they return in both).  Then both runs return the
    same value, and their records agree entry by entry once the outcomes of
    hooks and halt commands are masked: the same tasks were run with the
    same outcomes, the same branch was taken after each of them, the same
    sleeps and halt commands followed. *)
Theorem hooks_never_inspected (s1 : St W1) (s2 : St W2) :
  R (fst s1) (fst s2) ->
  map blind (snd s1) = map blind (snd s2) ->
  (forall order, @resolved_order W1 A config dirname (fst s1) = Some order ->
                 forall t, In t order -> scheduled t) ->
  same_flow R (@process_taskdir W1 A config dirname s1)
              (@process_taskdir W2 B config dirname s2) /\
  (forall v1 v2 t1 t2,
      @process_taskdir W1 A config dirname s1 = Some (v1, t1) ->
      @process_taskdir W2 B config dirname s2 = Some (v2, t2) ->
      v1 = v2 /\ ran Main (snd t1) = ran Main (snd t2) /\
      slept (snd t1) = slept (snd t2) /\
      List.length (ran HaltCmd (snd t1)) = List.length (ran HaltCmd (snd t2))).
Proof.
  intros HR Hlog Hsched.
  assert (Hflow : same_flow R (@process_taskdir W1 A config dirname s1)
                              (@process_taskdir W2 B config dirname s2)).
  { unfold process_taskdir, resolved_order, discover.
    destruct (outside_agrees (fst s1) (fst s2) HR) as [Hdir Henv].
    rewrite <- Hdir, <- Henv.
    unfold resolved_order, discover in Hsched.
    destruct (sequential_ordering _) as [order|]; [|exact I].
    apply for_tries_flow; [apply Hsched; reflexivity|split; assumption]. }
  split; [exact Hflow|].
  intros v1 v2 t1 t2 H1 H2. rewrite H1, H2 in Hflow. simpl in Hflow.
  destruct Hflow as (Hv & _ & Hblind). split; [exact Hv|].
  split; [now apply blind_keeps_tasks|].
  assert (Hproj : forall f : Event -> bool,
             (forall e, f (blind e) = f e) ->
             map blind (filter f (snd t1)) = map blind (filter f (snd t2))).
  { intros f Hf. revert Hblind. generalize (snd t1) (snd t2).
    induction l as [|e1 l1 IH]; intros [|e2 l2] Heq; try discriminate; [reflexivity|].
    simpl in Heq. inversion Heq as [[Hhd Htl]]. simpl.
    rewrite <- (Hf e1), <- (Hf e2), Hhd.
    destruct (f (blind e2)); simpl; [rewrite Hhd; f_equal|]; now apply IH. }
  split.
  - assert (Hs : map blind (slept (snd t1)) = map blind (slept (snd t2))).
    { apply Hproj. intros [[| | |] ? ? ? ? ?| |]; reflexivity. }
    assert (Hid : forall l, map blind (slept l) = slept l).
    { induction l as [|e l IH]; [reflexivity|].
      unfold slept in *. simpl. destruct e as [[| | |] ? ? ? ? ?| |]; simpl; auto.
      now rewrite IH. }
    now rewrite !Hid in Hs.
  - assert (Hh : map blind (ran HaltCmd (snd t1)) = map blind (ran HaltCmd (snd t2))).
    { apply Hproj. intros [[| | |] ? ? ? ? ?| |]; reflexivity. }
    apply (f_equal (@List.length Event)) in Hh. now rewrite !length_map in Hh.
Qed.

End Noninterference.

(** ** The engine on the sample directory *)

Section SampleRuns.

Import Supervisor.

Lemma retry_on_threshold_halts_witness :
  exists s3,
    @for_tries Host (sample_world 0 0 1) (sample_config 3 (Some 1)) "tasks" []
               [1; 2; 3] ["a"; "b"; "c"]%string fresh = Some (RFalse, s3) /\
    ran HaltCmd (snd s3) =
      [Ran HaltCmd "b" 1 (Split "sh" (QPath "tasks/halt")) 30 OK] /\
    map task_of (ran Main (snd s3)) = ["a"; "b"]%string.
Proof.
  edestruct (@retry_on_threshold_halts Host (sample_world 0 0 1)
               (sample_config 3 (Some 1)) "tasks" [] 1 [2; 3]
               ["a"%string] "b" ["c"%string] fresh)
    as (_ & Hrun & _).
  - vm_compute. reflexivity.
  - vm_compute. reflexivity.
  - reflexivity.
  - vm_compute. reflexivity.
  - eexists. split; [exact Hrun|]. split; reflexivity.
Defined.

Lemma halt_outcome_halts_witness :
  exists s3,
    @for_tries Host (sample_world 0 0 2) (sample_config 3 None) "tasks" []
               [2; 3] ["a"; "b"; "c"]%string fresh = Some (RFalse, s3) /\
    ran HaltCmd (snd s3) =
      [Ran HaltCmd "b" 2 (Split "sh" (QPath "tasks/halt")) 30 OK] /\
    map task_of (ran Main (snd s3)) = ["a"; "b"]%string.
Proof.
  edestruct (@halt_outcome_halts Host (sample_world 0 0 2)
               (sample_config 3 None) "tasks" [] 2 [3]
               ["a"%string] "b" ["c"%string] fresh)
    as (_ & Hrun & _).
  - vm_compute. reflexivity.
  - vm_compute. reflexivity.
  - vm_compute. reflexivity.
  - eexists. split; [exact Hrun|]. split; reflexivity.
Defined.

(** C2 fails on the last value of the attempt counter.  With a global
    [max_tries] of 1 and a [max_tries] of 2 for task [b], the [RETRY] of [b]
    in pass 1 is below its threshold: the engine sleeps on what is its last
    try, abandons the pass, and the run is over.  [process_taskdir] returns
    [None]; the attempt counter is not incremented, no pass 2 is made, [a]
    is not run again, and no halt command is run. *)
Theorem last_try_retry_gives_up :
  exists s',
    @process_taskdir Host (sample_world 0 0 1) (sample_config 1 (Some 2)) "tasks" fresh
    = Some (RNone, s') /\
    ran Main (snd s') =
      [main_run (sample_config 1 (Some 2)) "tasks" 1 "a" OK;
       main_run (sample_config 1 (Some 2)) "tasks" 1 "b" RETRY] /\
    1 < ts_max_tries (task_settings (sample_config 1 (Some 2)) "b") /\
    try_nums (snd s') = [1; 1; 1; 1; 1; 1] /\
    slept (snd s') = [Slept 1] /\
    last (snd s') (Iteration 0) = Slept 1 /\
    ran HaltCmd (snd s') = [].
Proof.
  eexists. split; [vm_compute; reflexivity|].
  repeat split; vm_compute; reflexivity.
Qed.

(** The reading of the retry rule under which every [RETRY] below the task's
    threshold restarts the task list does not hold of the engine: the run
    above is a pass of that kind with no pass after it. *)
Lemma last_pass_retry_does_not_restart : ~ retry_always_restarts.
Proof.
  intros Hclaim.
  edestruct (Hclaim Host (sample_world 0 0 1) (sample_config 1 (Some 2)) "tasks"%string []
                    1 ["a"%string] "b"%string ["c"%string] fresh)
    as (_ & Hrestart).
  - simpl. lia.
  - vm_compute. reflexivity.
  - vm_compute. reflexivity.
  - vm_compute. reflexivity.
  - vm_compute. reflexivity.
  - vm_compute in Hrestart. discriminate Hrestart.
Qed.

Lemma retry_below_threshold_restarts_witness :
  exists s3,
    @for_tasks Host (sample_world 0 0 1) (sample_config 3 None) "tasks" [] 1
               ["a"; "b"; "c"]%string fresh = Some (Abandoned, s3) /\
    @for_tries Host (sample_world 0 0 1) (sample_config 3 None) "tasks" []
               (range 1 4) ["a"; "b"; "c"]%string fresh =
    @for_tries Host (sample_world 0 0 1) (sample_config 3 None) "tasks" []
               (2 :: range 3 4) ["a"; "b"; "c"]%string s3 /\
    slept (snd s3) = [Slept 1] /\
    map task_of (ran Main (snd s3)) = ["a"; "b"]%string.
Proof.
  edestruct (@retry_below_threshold_restarts Host (sample_world 0 0 1)
               (sample_config 3 None) "tasks" [] 1
               ["a"%string] "b" ["c"%string] fresh)
    as (Hpass & Hrestart & _).
  - simpl. lia.
  - vm_compute. reflexivity.
  - vm_compute. reflexivity.
  - reflexivity.
  - vm_compute. reflexivity.
  - eexists. split; [exact Hpass|].
    split; [apply Hrestart; simpl; lia|]. split; reflexivity.
Defined.

Lemma pass_endings_witness :
  exists s',
    @for_tries Host (sample_world 0 0 0) (sample_config 3 None) "tasks" []
               [1; 2; 3] ["a"; "b"; "c"]%string fresh = Some (RTrue, s') /\
    map task_of (ran Main (snd s')) = ["a"; "b"; "c"]%string.
Proof.
  edestruct (@pass_endings Host (sample_world 0 0 0) (sample_config 3 None)
               "tasks" [] 1 [2; 3] ["a"; "b"; "c"]%string fresh Completed)
    as (new & Hlog & Hshape & _ & Hall).
  - vm_compute. reflexivity.
  - destruct Hshape as (_ & Hm & _).
    destruct Hall as (_ & _ & Hrun).
    + intros ev Hin. rewrite Hm in Hin. eapply outcome_of_oks. exact Hin.
    + eexists. split; [exact Hrun|]. reflexivity.
Defined.


Lemma halt_task_not_scheduled_witness :
  (forall order,
      @resolved_order Host (sample_world 0 0 0) (sample_config 3 None) "tasks" (fst fresh)
      = Some order ->
      ~ In (halt_task (sample_config 3 None)) order) /\
  (forall v s',
      @process_taskdir Host (sample_world 0 0 0) (sample_config 3 None) "tasks" fresh
      = Some (v, s') ->
      exists new, snd s' = snd fresh ++ new /\
                  forall ev, In ev (ran Main new) ->
                             task_of ev <> halt_task (sample_config 3 None)).
Proof.
  apply (@halt_task_not_scheduled Host (sample_world 0 0 0) (sample_config 3 None)
           "tasks" fresh).
  simpl. repeat constructor; simpl; intuition discriminate.
Defined.

(** C7 fails for a count of 0: [times and t > times] is false for every [t]
    when [times] is 0, so [runner] with [times = 0] does not stop after at
    most 0 iterations; as long as the iterations succeed it goes on, one
    iteration per unit of fuel. *)
Theorem runner_zero_times_never_stops :
  forall fuel,
    exists s',
      @runner Host (sample_world 0 0 0) fuel (sample_config 3 None) "tasks" (Some 0) fresh
      = Some (StillLooping, s') /\
      List.length (iterations (snd s')) = fuel.
Proof.
  intros fuel.
  destruct (@runner_unbounded Host (sample_world 0 0 0) (sample_config 3 None) "tasks"
              (Some 0) (or_intror eq_refl)) with (fuel := fuel) (t := 0) (s := fresh)
    as (s' & new & Hrun & Hlog & Hlen).
  - apply (instant_run_ok 1 (sample_table 0 0 0) sample_files []
             (sample_config 3 None) "tasks" ["a"; "b"; "c"]%string).
    + simpl. lia.
    + intros h. reflexivity.
    + intros t [<-|[<-|[<-|[]]]]; reflexivity.
  - exists s'. split; [exact Hrun|]. rewrite Hlog. exact Hlen.
Qed.

(** With a count of 3 the same run makes three iterations and returns. *)
Example runner_three_times :
  exists s',
    @runner Host (sample_world 0 0 0) 10 (sample_config 3 None) "tasks" (Some 3) fresh
    = Some (Finished, s') /\
    List.length (iterations (snd s')) = 3%nat.
Proof. eexists. split; vm_compute; reflexivity. Qed.

Lemma hooks_never_inspected_witness :
  exists t1 t2,
    @process_taskdir Host (sample_world 0 0 1) (sample_config 3 (Some 1)) "tasks" fresh
    = Some (RFalse, t1) /\
    @process_taskdir Host (sample_world 1 2 1) (sample_config 3 (Some 1)) "tasks" fresh
    = Some (RFalse, t2) /\
    map outcome_of (ran PreHook (snd t1)) = [OK; OK] /\
    map outcome_of (ran PreHook (snd t2)) = [RETRY; RETRY] /\
    map outcome_of (ran HaltCmd (snd t1)) = [OK] /\
    map outcome_of (ran HaltCmd (snd t2)) = [HALT] /\
    ran Main (snd t1) = ran Main (snd t2) /\
    slept (snd t1) = slept (snd t2) /\
    List.length (ran HaltCmd (snd t1)) = List.length (ran HaltCmd (snd t2)).
Proof.
  destruct (@hooks_never_inspected Host Host (sample_world 0 0 1) (sample_world 1 2 1)
              (sample_config 3 (Some 1)) "tasks" (fun _ _ => True)
              (fun t => In t ["a"; "b"; "c"]%string)) with (s1 := fresh) (s2 := fresh)
    as [_ Hsame].
  - intros t env w1 w2 Hsched _. simpl.
    rewrite !(run_task_instant 1). simpl. split; [|exact I].
    destruct Hsched as [<-|[<-|[<-|[]]]]; reflexivity.
  - intros role c env mt w1 w2 _ _. simpl.
    rewrite !(run_task_instant 1). exact I.
  - intros secs w1 w2 _. simpl. unfold Supervisor.sleep.
    destruct (secs <? 0); exact I.
  - intros w1 w2 _. split; reflexivity.
  - exact I.
  - reflexivity.
  - intros order Horder t Ht. vm_compute in Horder. inversion Horder; subst. exact Ht.
  - eexists. eexists.
    split; [vm_compute; reflexivity|]. split; [vm_compute; reflexivity|].
    split; [reflexivity|]. split; [reflexivity|].
    split; [reflexivity|]. split; [reflexivity|].
    edestruct Hsame as (_ & Hm & Hs & Hh);
      [vm_compute; reflexivity|vm_compute; reflexivity|].
    split; [exact Hm|]. split; [exact Hs|exact Hh].
Defined.

End SampleRuns.

(** ** The process supervisor: budgets *)

Section SupervisorBudgets.

Import Supervisor.

Lemma supervise_loop_bounded (m : Machine) (p : Proc) (pid : nat) (start : Q)
      (max_time : Z) :
  0 < max_time ->
  (forall i, 0 <= lag m i)%Q ->
  forall k fuel h,
    (k < fuel)%nat ->
    (inject_Z max_time + 1 - (clock h - start) <= inject_Z (Z.of_nat k))%Q ->
    exists r j e,
      (j <= k)%nat /\
      supervise_loop fuel m p pid start max_time h =
      Some (r, emit (final_call pid e) (after_naps m 1 j h)).
Proof.
  intros Hpos Hlag.
  assert (Hnz : (max_time =? 0) = false) by (apply Z.eqb_neq; lia).
  induction k as [|k IH]; intros fuel h Hfuel Hleft.
  - destruct fuel as [|fuel]; [lia|]. simpl.
    change (inject_Z (Z.of_nat 0)) with 0%Q in Hleft.
    destruct (poll p start (clock h)) as [rv|].
    + exists (classify rv), 0%nat, (Reaped rv). split; [lia|reflexivity].
    + rewrite Hnz.
      destruct (Qlt_le_dec (inject_Z max_time) (clock h - start)); [|lra].
      exists RETRY, 0%nat, Killed. split; [lia|reflexivity].
  - destruct fuel as [|fuel]; [lia|]. simpl.
    destruct (poll p start (clock h)) as [rv|].
    + exists (classify rv), 0%nat, (Reaped rv). split; [lia|reflexivity].
    + rewrite Hnz.
      destruct (Qlt_le_dec (inject_Z max_time) (clock h - start)).
      * exists RETRY, 0%nat, Killed. split; [lia|reflexivity].
      * rewrite Nat2Z.inj_succ in Hleft. unfold Z.succ in Hleft.
        rewrite inject_Z_plus in Hleft. change (inject_Z 1) with 1%Q in Hleft.
        pose proof (Hlag (naps h)) as Hl.
        destruct (IH fuel (nap m 1 h)) as (r & j & e & Hj & Hrun); [lia| |].
        { simpl. change (inject_Z 1) with 1%Q. lra. }
        exists r, (S j), e. split; [lia|exact Hrun].
Qed.

(** X1: under a budget, [run_task] cannot block for ever: on a host whose
    sleeps are never short it returns within [max_time + 2] turns of its
    loop, having slept at most [max_time + 1] times, one second each. *)
Theorem run_task_budget_returns (m : Machine) (t : Cmd) (env : Environ)
        (max_time : Z) (h : Host) :
  0 < max_time ->
  (forall i, 0 <= lag m i)%Q ->
  forall fuel,
    (Z.to_nat max_time + 2 <= fuel)%nat ->
    exists r h' j e,
      run_task fuel m t env max_time h = Some (r, h') /\
      (j <= Z.to_nat max_time + 1)%nat /\
      syslog h' = syslog h ++ Spawn (spawned h) t :: repeat (Nap 1) j
                            ++ [final_call (spawned h) e].
Proof.
  intros Hpos Hlag fuel Hfuel. unfold run_task.
  destruct (supervise_loop_bounded m (procs m (spawned h) t env) (spawned h)
              (clock h) max_time Hpos Hlag (Z.to_nat max_time + 1) fuel (started t h))
    as (r & j & e & Hj & Hrun); [lia| |].
  - simpl. replace (Z.of_nat (Z.to_nat max_time + 1)) with (max_time + 1) by lia.
    rewrite inject_Z_plus. change (inject_Z 1) with 1%Q. lra.
  - exists r. eexists. exists j, e. split; [exact Hrun|]. split; [exact Hj|].
    unfold emit. simpl. rewrite after_naps_syslog. simpl.
    rewrite <- !app_assoc. reflexivity.
Qed.

Lemma run_task_budget_returns_witness :
  exists r h' j e,
    run_task 3 stuck job [] 1 boot = Some (r, h') /\
    (j <= Z.to_nat 1 + 1)%nat /\
    syslog h' = syslog boot ++ Spawn (spawned boot) job :: repeat (Nap 1) j
                               ++ [final_call (spawned boot) e].
Proof.
  apply (run_task_budget_returns stuck job [] 1 boot).
  - lia.
  - intros i. vm_compute. discriminate.
  - simpl. lia.
Defined.

(** X2: with [max_time = 0] the process is never sent a termination
    signal: whenever [run_task] returns, it slept 20 seconds at a time and
    its last call is the [wait] on the exited process, whose status alone
    gives the outcome. *)
Theorem run_task_unbounded_never_kills (fuel : nat) (m : Machine) (t : Cmd)
        (env : Environ) (h : Host) (r : Outcome) (h' : Host) :
  run_task fuel m t env 0 h = Some (r, h') ->
  let rv := status (procs m (spawned h) t env) in
  r = classify rv /\
  exists k,
    syslog h' = syslog h ++ Spawn (spawned h) t :: repeat (Nap 20) k
                          ++ [Reap (spawned h) rv].
Proof.
  intros Hrun rv. apply run_task_shape in Hrun.
  destruct Hrun as (k & e & _ & Hlog & He). destruct e as [rv'|].
  - destruct He as (-> & -> & _). split; [reflexivity|]. exists k. exact Hlog.
  - destruct He as (_ & Hnz & _). contradiction.
Qed.

Lemma run_task_unbounded_never_kills_witness :
  OK = classify 0 /\
  exists k,
    syslog (mkHost (201 # 10) 1 1 [Spawn 0 job; Nap 20; Reap 0 0])
    = syslog boot ++ Spawn 0 job :: repeat (Nap 20) k ++ [Reap 0 0].
Proof.
  apply (run_task_unbounded_never_kills 5 sluggish job [] boot OK
           (mkHost (201 # 10) 1 1 [Spawn 0 job; Nap 20; Reap 0 0])).
  vm_compute. reflexivity.
Defined.

Lemma supervise_loop_immortal (m : Machine) (p : Proc) (pid : nat) (start : Q) :
  lifetime p = None ->
  forall fuel h, supervise_loop fuel m p pid start 0 h = None.
Proof.
  intros Hlife. induction fuel as [|fuel IH]; intros h.
  - reflexivity.
  - simpl. unfold poll. rewrite Hlife. apply IH.
Qed.

(** X3: with [max_time = 0] and a process that never exits, [run_task]
    never returns, however many turns of its loop it is given. *)
Theorem run_task_unbounded_immortal_hangs (m : Machine) (t : Cmd) (env : Environ)
        (h : Host) :
  lifetime (procs m (spawned h) t env) = None ->
  forall fuel, run_task fuel m t env 0 h = None.
Proof.
  intros Hlife fuel. unfold run_task.
  apply supervise_loop_immortal. exact Hlife.
Qed.

Lemma run_task_unbounded_immortal_hangs_witness :
  run_task 50 stuck job [] 0 boot = None.
Proof.
  apply (run_task_unbounded_immortal_hangs stuck job [] boot). reflexivity.
Defined.

(** X4: a negative [max_time] is an expired budget: a process that is
    still running right after the spawn is sent the termination signal at
    the first check, without any sleep, and [RETRY] is returned. *)
Theorem run_task_negative_budget (m : Machine) (t : Cmd) (env : Environ)
        (max_time : Z) (h : Host) (fuel : nat) :
  max_time < 0 ->
  poll (procs m (spawned h) t env) (clock h) (clock h) = None ->
  run_task (S fuel) m t env max_time h =
  Some (RETRY, emit (Terminate (spawned h)) (started t h)).
Proof.
  intros Hneg Hpoll. unfold run_task. simpl. rewrite Hpoll.
  destruct (Z.eqb_spec max_time 0) as [|_]; [lia|].
  destruct (Qlt_le_dec (inject_Z max_time) (clock h - clock h)) as [_|Hle];
    [reflexivity|].
  rewrite Zlt_Qlt in Hneg. change (inject_Z 0) with 0%Q in Hneg. lra.
Qed.

Lemma run_task_negative_budget_witness :
  run_task 1 steady job [] (-5) boot =
  Some (RETRY, emit (Terminate 0%nat) (started job boot)).
Proof.
  apply (run_task_negative_budget steady job [] (-5) boot 0).
  - lia.
  - reflexivity.
Defined.

Lemma supervise_loop_kill_latency (m : Machine) (p : Proc) (pid : nat) (start : Q)
      (max_time : Z) :
  forall fuel h r h',
    supervise_loop fuel m p pid start max_time h = Some (r, h') ->
    last (syslog h') (Nap 0) = Terminate pid ->
    (clock h - start <= inject_Z max_time)%Q ->
    (naps h < naps h')%nat /\
    (clock h' - start <= inject_Z max_time + 1 + lag m (naps h' - 1))%Q.
Proof.
  induction fuel as [|fuel IH]; intros h r h' Hrun Hlast Hin; [discriminate|].
  simpl in Hrun. destruct (poll p start (clock h)) as [rv|].
  { inversion Hrun; subst. simpl in Hlast. rewrite last_last in Hlast. discriminate. }
  destruct (Z.eqb_spec max_time 0) as [Hz|Hnz].
  { apply supervise_loop_shape in Hrun. destruct Hrun as (k & e & -> & He).
    simpl in Hlast. rewrite last_last in Hlast.
    destruct e; [discriminate|]. destruct He as (_ & Hne & _). contradiction. }
  destruct (Qlt_le_dec (inject_Z max_time) (clock h - start)) as [Hlt|_]; [lra|].
  destruct (Qlt_le_dec (inject_Z max_time) (clock (nap m 1 h) - start)) as [Hover|Hstill].
  - destruct fuel as [|fuel]; [discriminate|]. simpl in Hrun.
    destruct (poll p start (clock h + inject_Z 1 + lag m (naps h))) as [rv|].
    { inversion Hrun; subst. simpl in Hlast. rewrite last_last in Hlast. discriminate. }
    destruct (Z.eqb_spec max_time 0) as [|_]; [contradiction|].
    simpl in Hover.
    destruct (Qlt_le_dec (inject_Z max_time)
                         (clock h + inject_Z 1 + lag m (naps h) - start)); [|lra].
    inversion Hrun; subst. simpl. split; [lia|].
    rewrite Nat.sub_0_r. change (inject_Z 1) with 1%Q. lra.
  - destruct (IH (nap m 1 h) r h' Hrun Hlast Hstill) as [Hn Hb].
    simpl in Hn. split; [lia|exact Hb].
Qed.

(** X5: when [run_task] gives up on a process, the budget has just run
    out: the elapsed time at the termination signal exceeds [max_time] by no
    more than the last sleep, one second plus that sleep's lag. *)
Theorem run_task_kill_latency (fuel : nat) (m : Machine) (t : Cmd) (env : Environ)
        (max_time : Z) (h : Host) (r : Outcome) (h' : Host) :
  0 <= max_time ->
  run_task fuel m t env max_time h = Some (r, h') ->
  last (syslog h') (Nap 0) = Terminate (spawned h) ->
  (naps h < naps h')%nat /\
  (inject_Z max_time < clock h' - clock h)%Q /\
  (clock h' - clock h <= inject_Z max_time + 1 + lag m (naps h' - 1))%Q.
Proof.
  intros Hpos Hrun Hlast.
  assert (Hlow : (inject_Z max_time < clock h' - clock h)%Q).
  { destruct (run_task_shape m t env max_time fuel h r h' Hrun)
      as (k & e & -> & _ & He).
    simpl in Hlast. rewrite last_last in Hlast.
    destruct e; [discriminate|]. now destruct He as (_ & _ & _ & Hover). }
  unfold run_task in Hrun.
  destruct (supervise_loop_kill_latency m _ _ _ _ fuel (started t h) r h' Hrun Hlast)
    as [Hn Hb].
  - simpl. rewrite Zle_Qle in Hpos. change (inject_Z 0) with 0%Q in Hpos. lra.
  - simpl in Hn. auto.
Qed.

Lemma run_task_kill_latency_witness :
  run_task 5 stuck job [] 1 boot
  = Some (RETRY, mkHost (11 # 10) 1 1 [Spawn 0 job; Nap 1; Terminate 0]) /\
  (0 < 1)%nat /\
  (inject_Z 1 < (11 # 10) - 0)%Q /\
  ((11 # 10) - 0 <= inject_Z 1 + 1 + (1 # 10))%Q.
Proof.
  assert (Hrun : run_task 5 stuck job [] 1 boot
                 = Some (RETRY, mkHost (11 # 10) 1 1 [Spawn 0 job; Nap 1; Terminate 0]))
    by (vm_compute; reflexivity).
  split; [exact Hrun|].
  apply (run_task_kill_latency 5 stuck job [] 1 boot RETRY
           (mkHost (11 # 10) 1 1 [Spawn 0 job; Nap 1; Terminate 0])).
  - lia.
  - exact Hrun.
  - reflexivity.
Defined.

End SupervisorBudgets.

(** ** The execution engine: what a run leaves in the record *)

Section EngineRecords.

Context {W : Type} {world : World W}.
Variables (config : Config) (dirname : string).

Lemma attempt_leaves_entries (env : Environ) (n : Z) (t : string) (s : St W)
      (r : Outcome) (s' : St W) :
  attempt config dirname env n t s = Some (r, s') ->
  exists before after,
    snd s' = snd s ++ attempt_entries config dirname n t before r after.
Proof.
  unfold attempt, attempt_entries, bind, ret. intros Hrun.
  destruct (truthy (pre_task_hook config)).
  - destruct (call PreHook _ _ _ _ _ s) as [[r0 s0]|] eqn:Hpre; [|discriminate].
    apply call_inv in Hpre. destruct Hpre as (w0 & _ & ->).
    destruct (call Main _ _ _ _ _ _) as [[r1 s1]|] eqn:Hmain; [|discriminate].
    apply call_inv in Hmain. destruct Hmain as (w1 & _ & ->).
    destruct (truthy (post_task_hook config)).
    + destruct (call PostHook _ _ _ _ _ _) as [[r2 s2]|] eqn:Hpost; [|discriminate].
      apply call_inv in Hpost. destruct Hpost as (w2 & _ & ->).
      inversion Hrun; subst. exists r0, r2. simpl.
      rewrite <- !app_assoc. reflexivity.
    + inversion Hrun; subst. exists r0, OK. simpl.
      rewrite <- !app_assoc. reflexivity.
  - destruct (call Main _ _ _ _ _ _) as [[r1 s1]|] eqn:Hmain; [|discriminate].
    apply call_inv in Hmain. destruct Hmain as (w1 & _ & ->).
    destruct (truthy (post_task_hook config)).
    + destruct (call PostHook _ _ _ _ _ _) as [[r2 s2]|] eqn:Hpost; [|discriminate].
      apply call_inv in Hpost. destruct Hpost as (w2 & _ & ->).
      inversion Hrun; subst. exists OK, r2. simpl.
      rewrite <- !app_assoc. reflexivity.
    + inversion Hrun; subst. exists OK, OK. reflexivity.
Qed.

(** X6: one task leaves at most three entries, in this order: the
    pre-task hook (only when one is set and not empty), the task, the
    post-task hook (likewise).  The pre-task hook runs under the task's
    effective [max_time] and the post-task hook under the global one; both
    get the global [max_tries] as [max_retries], and the post-task hook gets
    the task's outcome as [result]. *)
Theorem attempt_exact_record (env : Environ) (n : Z) (t : string) (s : St W)
        (r : Outcome) (s' : St W) :
  attempt config dirname env n t s = Some (r, s') ->
  exists before after,
    snd s' = snd s
             ++ (if truthy (pre_task_hook config)
                 then [Ran PreHook t n
                           (Split (text (pre_task_hook config))
                                  (QJson (mkStats t n (max_tries config) None)))
                           (ts_max_time (task_settings config t)) before]
                 else [])
             ++ [Ran Main t n (task_cmd dirname (task_settings config t) t)
                     (ts_max_time (task_settings config t)) r]
             ++ (if truthy (post_task_hook config)
                 then [Ran PostHook t n
                           (Split (text (post_task_hook config))
                                  (QJson (mkStats t n (max_tries config) (Some r))))
                           (max_time config) after]
                 else []).
Proof.
  intros Hrun. exact (attempt_leaves_entries env n t s r s' Hrun).
Qed.

Lemma try_nums_app (a b : list Event) : try_nums (a ++ b) = try_nums a ++ try_nums b.
Proof. apply flat_map_app. Qed.

Lemma attempt_tries (env : Environ) (n : Z) (t : string) (s : St W)
      (r : Outcome) (s' : St W) :
  attempt config dirname env n t s = Some (r, s') ->
  exists new, snd s' = snd s ++ new /\ forall k, In k (try_nums new) -> k = n.
Proof.
  intros Hrun. apply attempt_leaves_entries in Hrun.
  destruct Hrun as (before & after & Hlog).
  eexists. split; [exact Hlog|]. unfold attempt_entries.
  intros k. rewrite !try_nums_app.
  destruct (truthy (pre_task_hook config)); destruct (truthy (post_task_hook config));
    simpl; intuition.
Qed.

Lemma for_tasks_tries (env : Environ) (n : Z) :
  forall tasks s e s',
    for_tasks config dirname env n tasks s = Some (e, s') ->
    exists new, snd s' = snd s ++ new /\ forall k, In k (try_nums new) -> k = n.
Proof.
  induction tasks as [|t rest IH]; intros s e s' Hrun.
  - simpl in Hrun. inversion Hrun; subst. exists []. rewrite app_nil_r.
    split; [reflexivity|]. intros k [].
  - rewrite for_tasks_cons in Hrun.
    destruct (attempt config dirname env n t s) as [[r s1]|] eqn:Ha; [|discriminate].
    destruct (react config dirname env n t r s1) as [[f s2]|] eqn:Hr; [|discriminate].
    apply attempt_tries in Ha. destruct Ha as (new1 & Hlog1 & Hk1).
    apply react_inv in Hr.
    assert (Hreact : exists new2, snd s2 = snd s1 ++ new2 /\
                                  forall k, In k (try_nums new2) -> k = n).
    { destruct r.
      - destruct Hr as [_ ->]. exists []. rewrite app_nil_r.
        split; [reflexivity|]. intros k [].
      - destruct (n =? ts_max_tries (task_settings config t)).
        + destruct Hr as (_ & rh & w' & _ & ->). eexists. split; [reflexivity|].
          simpl. intros k [<-|[]]. reflexivity.
        + destruct Hr as (_ & w' & _ & ->). eexists. split; [reflexivity|].
          simpl. intros k [].
      - destruct Hr as (_ & rh & w' & _ & ->). eexists. split; [reflexivity|].
        simpl. intros k [<-|[]]. reflexivity. }
    destruct Hreact as (new2 & Hlog2 & Hk2).
    assert (Hrest : exists new3, snd s' = snd s2 ++ new3 /\
                                 forall k, In k (try_nums new3) -> k = n).
    { destruct f.
      - eapply IH. exact Hrun.
      - inversion Hrun; subst. exists []. rewrite app_nil_r.
        split; [reflexivity|]. intros k [].
      - inversion Hrun; subst. exists []. rewrite app_nil_r.
        split; [reflexivity|]. intros k []. }
    destruct Hrest as (new3 & Hlog3 & Hk3).
    exists (new1 ++ new2 ++ new3). split.
    + rewrite Hlog3, Hlog2, Hlog1, <- !app_assoc. reflexivity.
    + intros k. rewrite !try_nums_app. intros Hin.
      apply in_app_or in Hin. destruct Hin as [Hin|Hin]; [auto|].
      apply in_app_or in Hin. destruct Hin; auto.
Qed.

Lemma nondecreasing_app (n : Z) (l1 l2 : list Z) :
  (forall k, In k l1 -> k = n) ->
  (forall k, In k l2 -> n <= k) ->
  nondecreasing l2 ->
  nondecreasing (l1 ++ l2).
Proof.
  intros Hsame Hle Hnd. induction l1 as [|x l1 IH]; simpl; [exact Hnd|].
  split.
  - intros y Hy. rewrite (Hsame x (or_introl eq_refl)).
    apply in_app_or in Hy. destruct Hy as [Hy|Hy].
    + rewrite (Hsame y (or_intror Hy)). lia.
    + now apply Hle.
  - apply IH. intros k Hk. apply Hsame. now right.
Qed.

Lemma for_tries_tries (env : Environ) (tasks : list string) :
  forall tries s v s',
    nondecreasing tries ->
    for_tries config dirname env tries tasks s = Some (v, s') ->
    exists new,
      snd s' = snd s ++ new /\
      (forall k, In k (try_nums new) -> In k tries) /\
      nondecreasing (try_nums new).
Proof.
  induction tries as [|n later IH]; intros s v s' Hsorted Hrun.
  - simpl in Hrun. inversion Hrun; subst. exists []. rewrite app_nil_r.
    simpl. repeat split; auto.
  - rewrite for_tries_cons in Hrun.
    destruct (for_tasks config dirname env n tasks s) as [[e s1]|] eqn:Hpass;
      [|discriminate].
    apply for_tasks_tries in Hpass. destruct Hpass as (new1 & Hlog1 & Hk1).
    destruct Hsorted as [Hfirst Hlater].
    assert (Hdone : snd s' = snd s1 ->
                    exists new, snd s' = snd s ++ new /\
                                (forall k, In k (try_nums new) -> In k (n :: later)) /\
                                nondecreasing (try_nums new)).
    { intros Heq. exists new1. split; [now rewrite Heq|]. split.
      - intros k Hk. left. symmetry. now apply Hk1.
      - rewrite <- (app_nil_r (try_nums new1)).
        apply (nondecreasing_app n); simpl; auto. intros k []. }
    destruct e.
    + inversion Hrun; subst. now apply Hdone.
    + apply IH in Hrun; [|exact Hlater].
      destruct Hrun as (new2 & Hlog2 & Hk2 & Hnd2).
      exists (new1 ++ new2). split; [rewrite Hlog2, Hlog1, app_assoc; reflexivity|].
      rewrite try_nums_app. split.
      * intros k Hk. apply in_app_or in Hk. destruct Hk as [Hk|Hk].
        -- left. symmetry. now apply Hk1.
        -- right. now apply Hk2.
      * apply (nondecreasing_app n); auto.
    + inversion Hrun; subst. now apply Hdone.
Qed.

Lemma range_nondecreasing (b : Z) :
  forall k a, Z.to_nat (b - a) = k -> nondecreasing (range a b).
Proof.
  induction k as [|k IH]; intros a Hk.
  - unfold range. rewrite Hk. exact I.
  - rewrite range_cons by lia. simpl. split.
    + intros y Hy. apply range_In in Hy. lia.
    + apply IH. lia.
Qed.

(** X7: the attempt counter starts at 1, never decreases and never
    exceeds the global [max_tries]: every hook, task and halt command of a
    run is recorded under a [try_num] of [1 .. max_tries], and these values
    are non-decreasing along the record. *)
Theorem attempt_counter_bounds (s : St W) (v : Ret) (s' : St W) :
  process_taskdir config dirname s = Some (v, s') ->
  exists new,
    snd s' = snd s ++ new /\
    (forall n, In n (try_nums new) -> 1 <= n <= max_tries config) /\
    nondecreasing (try_nums new).
Proof.
  unfold process_taskdir.
  destruct (resolved_order config dirname (fst s)) as [order|]; [|discriminate].
  intros Hrun. apply for_tries_tries in Hrun.
  - destruct Hrun as (new & Hlog & Hin & Hnd). exists new.
    split; [exact Hlog|]. split; [|exact Hnd].
    intros n Hn. apply Hin in Hn. apply range_In in Hn. lia.
  - eapply range_nondecreasing. reflexivity.
Qed.

Lemma for_tasks_work (env : Environ) (n : Z) (tasks : list string) (s : St W)
      (e : PassEnd) (s' : St W) :
  for_tasks config dirname env n tasks s = Some (e, s') ->
  exists new,
    snd s' = snd s ++ new /\
    (List.length (ran Main new) <= List.length tasks)%nat /\
    (List.length (slept new) <= 1)%nat.
Proof.
  intros Hrun. apply for_tasks_shape in Hrun. destruct Hrun as (new & Hlog & Hshape).
  exists new. split; [exact Hlog|]. split.
  - destruct (pass_prefix config dirname n tasks e new Hshape) as (rest & Hprefix).
    apply (f_equal (@List.length string)) in Hprefix.
    rewrite length_app, length_map in Hprefix. lia.
  - destruct Hshape as (_ & Hshape). destruct e.
    + destruct Hshape as (_ & _ & ->). simpl. lia.
    + destruct Hshape as (pre & t & post & front & _ & _ & _ & _ & -> & Hsf).
      rewrite slept_app, Hsf. simpl. lia.
    + destruct Hshape as (pre & t & post & r & rh & front & _ & _ & _ & _ & _ & ->).
      simpl. lia.
Qed.

Lemma for_tries_work (env : Environ) (tasks : list string) :
  forall tries s v s',
    for_tries config dirname env tries tasks s = Some (v, s') ->
    exists new,
      snd s' = snd s ++ new /\
      (List.length (ran Main new) <= List.length tries * List.length tasks)%nat /\
      (List.length (slept new) <= List.length tries)%nat.
Proof.
  induction tries as [|n later IH]; intros s v s' Hrun.
  - simpl in Hrun. inversion Hrun; subst. exists []. rewrite app_nil_r.
    simpl. repeat split; auto.
  - rewrite for_tries_cons in Hrun.
    destruct (for_tasks config dirname env n tasks s) as [[e s1]|] eqn:Hpass;
      [|discriminate].
    apply for_tasks_work in Hpass. destruct Hpass as (new1 & Hlog1 & Hm1 & Hs1).
    destruct e.
    + inversion Hrun; subst. exists new1. simpl. repeat split; auto; lia.
    + apply IH in Hrun. destruct Hrun as (new2 & Hlog2 & Hm2 & Hs2).
      exists (new1 ++ new2). split; [rewrite Hlog2, Hlog1, app_assoc; reflexivity|].
      rewrite ran_app, slept_app, !length_app. simpl. split; lia.
    + inversion Hrun; subst. exists new1. simpl. repeat split; auto; lia.
Qed.

Lemma range_length (a b : Z) : List.length (range a b) = Z.to_nat (b - a).
Proof. unfold range. now rewrite length_map, length_seq. Qed.

(** X8: a run does a bounded amount of work: it runs at most
    [max_tries] times the number of tasks of the resolved order, and sleeps
    at most [max_tries] times. *)
Theorem run_work_bound (s : St W) (v : Ret) (s' : St W) :
  process_taskdir config dirname s = Some (v, s') ->
  exists order new,
    resolved_order config dirname (fst s) = Some order /\
    snd s' = snd s ++ new /\
    (List.length (ran Main new)
     <= Z.to_nat (max_tries config) * List.length order)%nat /\
    (List.length (slept new) <= Z.to_nat (max_tries config))%nat.
Proof.
  unfold process_taskdir.
  destruct (resolved_order config dirname (fst s)) as [order|]; [|discriminate].
  intros Hrun. apply for_tries_work in Hrun.
  destruct Hrun as (new & Hlog & Hm & Hs). rewrite range_length in Hm, Hs.
  replace (max_tries config + 1 - 1) with (max_tries config) in Hm, Hs by lia.
  exists order, new. auto.
Qed.

End EngineRecords.

(** ** The execution engine: how a run ends *)

Section RunEndings.

Context {W : Type} {world : World W}.
Variables (config : Config) (dirname : string).

(** The end of the record, by returned value. *)
Lemma for_tries_ending (env : Environ) (tasks : list string) :
  forall tries s v s',
    for_tries config dirname env tries tasks s = Some (v, s') ->
    exists new,
      snd s' = snd s ++ new /\
      match v with
      | RTrue =>
          exists front n last_pass,
            In n tries /\ new = front ++ last_pass /\
            ran Main last_pass = oks config dirname n tasks /\
            slept last_pass = [] /\ ran HaltCmd new = []
      | RFalse =>
          exists front n t rh,
            In n tries /\ In t tasks /\
            new = front ++ [halt_run config dirname n t rh] /\
            ran HaltCmd front = []
      | RNone =>
          ran HaltCmd new = [] /\
          ((tries = [] /\ new = []) \/
           exists front t,
             In t tasks /\
             new = front ++ [Slept (ts_sleep_time (task_settings config t))])
      end.
Proof.
  induction tries as [|n later IH]; intros s v s' Hrun.
  - simpl in Hrun. inversion Hrun; subst. exists []. rewrite app_nil_r.
    split; [reflexivity|]. split; [reflexivity|]. left. auto.
  - rewrite for_tries_cons in Hrun.
    destruct (for_tasks config dirname env n tasks s) as [[e s1]|] eqn:Hpass;
      [|discriminate].
    apply for_tasks_shape in Hpass. destruct Hpass as (new1 & Hlog1 & _ & Hshape).
    destruct e.
    + inversion Hrun; subst. exists new1. split; [exact Hlog1|].
      destruct Hshape as (Hm & Hh & Hs).
      exists [], n, new1. simpl. auto.
    + destruct Hshape as (pre & t & post & front1 & Htasks & _ & _ & Hh1 & Hnew1 & _).
      apply IH in Hrun. destruct Hrun as (new2 & Hlog2 & Hend).
      exists (new1 ++ new2). split; [rewrite Hlog2, Hlog1, app_assoc; reflexivity|].
      destruct v.
      * destruct Hend as (front & k & last_pass & Hk & -> & Hm & Hs & Hh).
        exists (new1 ++ front), k, last_pass.
        split; [now right|]. split; [apply app_assoc|]. split; [exact Hm|].
        split; [exact Hs|]. rewrite ran_app, Hh1, Hh. reflexivity.
      * destruct Hend as (front & k & t' & rh & Hk & Ht' & -> & Hh).
        exists (new1 ++ front), k, t', rh.
        split; [now right|]. split; [exact Ht'|]. split; [apply app_assoc|].
        rewrite ran_app, Hh1, Hh. reflexivity.
      * destruct Hend as (Hh & Hcase). split; [rewrite ran_app, Hh1, Hh; reflexivity|].
        right. destruct Hcase as [[_ ->]|(front & t' & Ht' & ->)].
        -- exists front1, t. rewrite app_nil_r. split; [|exact Hnew1].
           rewrite Htasks. apply in_or_app. right. now left.
        -- exists (new1 ++ front), t'. split; [exact Ht'|apply app_assoc].
    + inversion Hrun; subst. exists new1. split; [exact Hlog1|].
      destruct Hshape as (pre & t & post & r & rh & front & Htasks & _ & _ & -> & Hh & _).
      exists front, n, t, rh. split; [now left|].
      split; [rewrite Htasks; apply in_or_app; right; now left|]. auto.
Qed.

(** X9: the halt command runs exactly when [False] is returned: it is
    then the last thing done and it is run once, for the task that stopped
    the run; a run that returns [True] or [None] never runs it. *)
Theorem halt_only_on_false (s : St W) (v : Ret) (s' : St W) :
  process_taskdir config dirname s = Some (v, s') ->
  exists new,
    snd s' = snd s ++ new /\
    (v = RFalse ->
     exists front n t rh,
       new = front ++ [halt_run config dirname n t rh] /\ ran HaltCmd front = []) /\
    (v <> RFalse -> ran HaltCmd new = []).
Proof.
  unfold process_taskdir.
  destruct (resolved_order config dirname (fst s)) as [order|]; [|discriminate].
  intros Hrun. apply for_tries_ending in Hrun. destruct Hrun as (new & Hlog & Hend).
  exists new. split; [exact Hlog|]. destruct v.
  - destruct Hend as (front & n & last_pass & _ & _ & _ & _ & Hh).
    split; [discriminate|]. intros _. exact Hh.
  - destruct Hend as (front & n & t & rh & _ & _ & Hnew & Hh).
    split; [|congruence]. intros _. exists front, n, t, rh. auto.
  - destruct Hend as (Hh & _). split; [discriminate|]. intros _. exact Hh.
Qed.

Lemma range_last (b : Z) :
  forall k a, Z.to_nat (b - a) = S k -> last (range a b) 0 = b - 1.
Proof.
  induction k as [|k IH]; intros a Hk.
  - rewrite range_cons by lia. unfold range.
    replace (Z.to_nat (b - (a + 1))) with 0%nat by lia. simpl. lia.
  - rewrite (range_cons a) by lia. rewrite (range_cons (a + 1)) by lia.
    change (last (a :: a + 1 :: range (a + 1 + 1) b) 0)
      with (last (a + 1 :: range (a + 1 + 1) b) 0).
    rewrite <- (range_cons (a + 1)) by lia. apply IH. lia.
Qed.

(** A run that ends with [None] after at least one pass: the last pass was
    abandoned at some task [t], which had returned [RETRY] under the last
    value of [try_num]; that is the last task entry, and the record ends
    with the sleep of [t]. *)
Lemma for_tries_none_ending (env : Environ) (tasks : list string) :
  forall tries s s',
    tries <> [] ->
    for_tries config dirname env tries tasks s = Some (RNone, s') ->
    exists front before t,
      In t tasks /\
      snd s' = snd s ++ front ++ [Slept (ts_sleep_time (task_settings config t))] /\
      ran Main front = before ++ [main_run config dirname (last tries 0) t RETRY] /\
      last tries 0 <> ts_max_tries (task_settings config t).
Proof.
  induction tries as [|n later IH]; intros s s' Hne Hrun; [contradiction|].
  rewrite for_tries_cons in Hrun.
  destruct (for_tasks config dirname env n tasks s) as [[e s1]|] eqn:Hpass;
    [|discriminate].
  destruct e; try discriminate.
  apply for_tasks_shape in Hpass. destruct Hpass as (new1 & Hlog1 & _ & Hshape).
  destruct Hshape as (pre & t & post & front1 & Htasks & Hm1 & Hthr & _ & Hnew1 & _).
  destruct later as [|n' later'].
  - simpl in Hrun. inversion Hrun; subst s'.
    exists front1, (oks config dirname n pre), t.
    split; [rewrite Htasks; apply in_or_app; right; now left|].
    split; [rewrite Hlog1, Hnew1; reflexivity|].
    split; [|exact Hthr].
    rewrite Hnew1, ran_app in Hm1. simpl in Hm1. now rewrite app_nil_r in Hm1.
  - destruct (IH s1 s') as (front2 & before2 & t2 & Ht2 & Hlog2 & Hm2 & Hthr2);
      [discriminate|exact Hrun|].
    change (last (n :: n' :: later') 0) with (last (n' :: later') 0).
    exists (new1 ++ front2), (ran Main new1 ++ before2), t2.
    split; [exact Ht2|].
    split; [rewrite Hlog2, Hlog1, <- !app_assoc; reflexivity|].
    split; [|exact Hthr2].
    rewrite ran_app, Hm2, app_assoc. reflexivity.
Qed.

(** X10: when [None] is returned after at least one pass, the last
    thing the engine did was to sleep for the [sleep_time] of the task that
    failed last: the last task entry of the record is that task's [RETRY],
    made under [try_num = max_tries] away from the task's own threshold, and
    the record ends with that task's sleep. *)
Theorem none_ends_with_sleep (s : St W) (s' : St W) :
  1 <= max_tries config ->
  process_taskdir config dirname s = Some (RNone, s') ->
  exists order front before t,
    resolved_order config dirname (fst s) = Some order /\
    In t order /\
    snd s' = snd s ++ front ++ [Slept (ts_sleep_time (task_settings config t))] /\
    ran Main front = before ++ [main_run config dirname (max_tries config) t RETRY] /\
    max_tries config <> ts_max_tries (task_settings config t).
Proof.
  intros Htries. unfold process_taskdir.
  destruct (resolved_order config dirname (fst s)) as [order|]; [|discriminate].
  intros Hrun. apply for_tries_none_ending in Hrun.
  - destruct Hrun as (front & before & t & Ht & Hlog & Hm & Hthr).
    rewrite (range_last (max_tries config + 1) (Z.to_nat (max_tries config) - 1) 1)
      in Hm, Hthr by lia.
    replace (max_tries config + 1 - 1) with (max_tries config) in Hm, Hthr by lia.
    exists order, front, before, t.
    split; [reflexivity|]. split; [exact Ht|]. split; [exact Hlog|].
    split; [exact Hm|exact Hthr].
  - rewrite range_cons by lia. discriminate.
Qed.

(** X11: [True] is returned only after a pass in which every task of
    the resolved order ran and returned [OK]: the record ends with such a
    pass, under a [try_num] of [1 .. max_tries], with no sleep in it; what
    earlier passes did is in front of it. *)
Theorem true_means_full_pass (s : St W) (s' : St W) :
  process_taskdir config dirname s = Some (RTrue, s') ->
  exists order front n last_pass,
    resolved_order config dirname (fst s) = Some order /\
    1 <= n <= max_tries config /\
    snd s' = snd s ++ front ++ last_pass /\
    ran Main last_pass = oks config dirname n order /\
    slept last_pass = [].
Proof.
  unfold process_taskdir.
  destruct (resolved_order config dirname (fst s)) as [order|]; [|discriminate].
  intros Hrun. apply for_tries_ending in Hrun.
  destruct Hrun as (new & Hlog & front & n & last_pass & Hn & -> & Hm & Hs & _).
  exists order, front, n, last_pass. apply range_In in Hn.
  repeat split; auto; lia.
Qed.

Lemma range_none (a b : Z) : b <= a -> range a b = [].
Proof.
  intros Hle. unfold range. replace (Z.to_nat (b - a)) with 0%nat by lia. reflexivity.
Qed.

(** X12: with a global [max_tries] of 0 or less there is no pass at
    all: whatever the tasks, [process_taskdir] runs nothing and returns
    [None], and [runner] ends its first iteration with [exit(1)]. *)
Theorem no_tries_no_work (order : list string) (s : St W) :
  max_tries config <= 0 ->
  resolved_order config dirname (fst s) = Some order ->
  process_taskdir config dirname s = Some (RNone, s) /\
  forall fuel times,
    past_limit times 1 = false ->
    runner (S fuel) config dirname times s =
    Some (SysExit 1, (fst s, snd s ++ [Iteration 1])).
Proof.
  intros Htries Horder.
  assert (Hrun : forall s0, fst s0 = fst s ->
                            process_taskdir config dirname s0 = Some (RNone, s0)).
  { intros s0 Hfst. unfold process_taskdir. rewrite Hfst, Horder.
    rewrite range_none by lia. reflexivity. }
  split; [now apply Hrun|].
  intros fuel times Hlimit. unfold runner. rewrite runner_loop_step. simpl.
  rewrite Hlimit, Hrun by reflexivity. reflexivity.
Qed.

(** X13: a directory that is empty, or holds the halt task only, is a
    success: with a global [max_tries] of at least 1, [process_taskdir]
    returns [True] without running anything. *)
Theorem empty_directory_succeeds (s : St W) :
  1 <= max_tries config ->
  list_directory dirname (fst s) = [] \/
  list_directory dirname (fst s) = [halt_task config] ->
  process_taskdir config dirname s = Some (RTrue, s).
Proof.
  intros Htries Hlist.
  assert (Horder : resolved_order config dirname (fst s) = Some []).
  { unfold resolved_order, discover. destruct Hlist as [-> | ->].
    - reflexivity.
    - simpl. rewrite String.eqb_refl. reflexivity. }
  unfold process_taskdir. rewrite Horder, range_cons by lia. reflexivity.
Qed.

End RunEndings.

(** ** The run driver: counting iterations *)

Section RunnerCounts.

Context {W : Type} {world : World W}.
Variables (config : Config) (taskdir : string).

(** The iterations of a run of the loop are numbered from [t + 1] on,
    without a gap; under a positive count [N] the numbers stay within [N]. *)
Lemma runner_loop_numbering (times : option Z) :
  forall fuel t s r s',
    runner_loop fuel config taskdir times t s = Some (r, s') ->
    exists new k,
      snd s' = snd s ++ new /\
      (k <= fuel)%nat /\
      iterations new = map Iteration (range (t + 1) (t + 1 + Z.of_nat k)) /\
      (forall N, times = Some N -> 0 < N -> 0 <= t -> t + Z.of_nat k <= Z.max t N).
Proof.
  induction fuel as [|fuel IH]; intros t s r s' Hrun.
  - simpl in Hrun. inversion Hrun; subst. exists [], 0%nat. rewrite app_nil_r.
    rewrite range_none by lia. simpl. repeat split; auto. intros; lia.
  - rewrite runner_loop_step in Hrun.
    destruct (past_limit times (t + 1)) eqn:Hlimit.
    + inversion Hrun; subst. exists [], 0%nat. rewrite app_nil_r.
      rewrite range_none by lia. simpl. repeat split; auto; [lia|]. intros; lia.
    + assert (Hroom : forall N, times = Some N -> 0 < N -> t + 1 <= N).
      { intros N -> HN. unfold past_limit in Hlimit.
        destruct (Z.eqb_spec N 0); [lia|].
        destruct (Z.gtb_spec (t + 1) N); [discriminate|lia]. }
      destruct (process_taskdir config taskdir (fst s, snd s ++ [Iteration (t + 1)]))
        as [[v s1]|] eqn:Hp; [|discriminate].
      apply process_taskdir_record in Hp.
      destruct Hp as (order & new1 & _ & Hlog1 & Hit1 & _). simpl in Hlog1.
      destruct (ret_truthy v).
      * apply IH in Hrun. destruct Hrun as (new2 & k & Hlog2 & Hk & Hit2 & Hmax).
        exists (Iteration (t + 1) :: new1 ++ new2), (S k).
        split; [rewrite Hlog2, Hlog1, <- !app_assoc; reflexivity|].
        split; [lia|]. split.
        -- simpl. rewrite iterations_app, Hit1, Hit2. simpl.
           rewrite (range_cons (t + 1)) by lia. simpl.
           replace (t + 1 + Z.pos (Pos.of_succ_nat k)) with (t + 1 + 1 + Z.of_nat k)
             by lia.
           reflexivity.
        -- intros N HN Hpos Ht. specialize (Hmax N HN Hpos).
           specialize (Hroom N HN Hpos). lia.
      * inversion Hrun; subst.
        exists (Iteration (t + 1) :: new1), 1%nat.
        split; [rewrite Hlog1, <- app_assoc; reflexivity|].
        split; [lia|]. split.
        -- simpl. rewrite Hit1. rewrite (range_cons (t + 1)) by lia.
           rewrite range_none by lia. reflexivity.
        -- intros N HN Hpos Ht. specialize (Hroom N HN Hpos). lia.
Qed.

(** X14: under a positive count [N], however [runner] ends it has
    started at most [N] iterations, numbered 1, 2, ... without a gap. *)
Theorem runner_positive_count (N : Z) (fuel : nat) (s : St W) (r : RunnerEnd)
        (s' : St W) :
  0 < N ->
  runner fuel config taskdir (Some N) s = Some (r, s') ->
  exists new k,
    snd s' = snd s ++ new /\
    Z.of_nat k <= N /\
    iterations new = map Iteration (range 1 (1 + Z.of_nat k)).
Proof.
  intros HN Hrun. unfold runner in Hrun. apply runner_loop_numbering in Hrun.
  destruct Hrun as (new & k & Hlog & _ & Hit & Hmax).
  exists new, k. split; [exact Hlog|]. split; [|exact Hit].
  specialize (Hmax N eq_refl HN). lia.
Qed.

(** X15: a negative count runs nothing: [runner] leaves its loop before
    the first iteration and returns. *)
Theorem runner_negative_count (N : Z) (fuel : nat) (s : St W) :
  N < 0 ->
  runner (S fuel) config taskdir (Some N) s = Some (Finished, s).
Proof.
  intros HN. unfold runner. rewrite runner_loop_step. unfold past_limit.
  destruct (Z.eqb_spec N 0); [lia|].
  destruct (Z.gtb_spec (0 + 1) N); [reflexivity|lia].
Qed.

(** X16: under a positive count [N], when every iteration succeeds
    [runner] makes exactly [N] iterations and returns, given fuel for more
    than [N] turns of its loop. *)
Theorem runner_counted_success (N : Z) (fuel : nat) (s : St W) :
  0 < N ->
  (Z.to_nat N < fuel)%nat ->
  (forall s0, exists s1, process_taskdir config taskdir s0 = Some (RTrue, s1)) ->
  exists s' new,
    runner fuel config taskdir (Some N) s = Some (Finished, s') /\
    snd s' = snd s ++ new /\
    List.length (iterations new) = Z.to_nat N.
Proof.
  intros HN Hfuel Hok. unfold runner.
  apply (runner_finishes config taskdir N HN Hok (Z.to_nat N) fuel 0 s); lia.
Qed.

(** X17: [runner] calls [exit] only with status 1, only right after an
    iteration whose [process_taskdir] returned [False] or [None], and does
    nothing after that iteration. *)
Theorem runner_exit_is_failure (times : option Z) (fuel : nat) (s : St W)
        (code : Z) (s' : St W) :
  runner fuel config taskdir times s = Some (SysExit code, s') ->
  code = 1 /\
  exists s0 k v,
    process_taskdir config taskdir (fst s0, snd s0 ++ [Iteration k]) = Some (v, s') /\
    ret_truthy v = false.
Proof.
  unfold runner. generalize 0 at 1. revert s.
  induction fuel as [|fuel IH]; intros s t Hrun; [discriminate|].
  rewrite runner_loop_step in Hrun.
  destruct (past_limit times (t + 1)); [discriminate|].
  destruct (process_taskdir config taskdir (fst s, snd s ++ [Iteration (t + 1)]))
    as [[v s1]|] eqn:Hp; [|discriminate].
  destruct (ret_truthy v) eqn:Hv.
  - eapply IH. exact Hrun.
  - inversion Hrun; subst. split; [reflexivity|]. exists s, (t + 1), v. auto.
Qed.

(** X18: without a count [runner] never returns: it ends by [exit(1)]
    or is still looping. *)
Theorem runner_without_count (fuel : nat) (s : St W) (r : RunnerEnd) (s' : St W) :
  runner fuel config taskdir None s = Some (r, s') ->
  r <> Finished.
Proof.
  unfold runner. generalize 0 at 1. revert s.
  induction fuel as [|fuel IH]; intros s t Hrun.
  - simpl in Hrun. inversion Hrun. discriminate.
  - rewrite runner_loop_step in Hrun. simpl in Hrun.
    destruct (process_taskdir config taskdir (fst s, snd s ++ [Iteration (t + 1)]))
      as [[v s1]|]; [|discriminate].
    destruct (ret_truthy v).
    + eapply IH. exact Hrun.
    + inversion Hrun. discriminate.
Qed.

End RunnerCounts.

(** ** Parsing and lookups *)

Section DataFacts.

Local Arguments Ascii.eqb : simpl never.

Lemma split_once_sound :
  forall s before after,
    split_once s = Some (before, after) ->
    s = (before ++ "." ++ after)%string /\ has_char "."%char before = false.
Proof.
  induction s as [|c rest IH]; intros before after Hsplit; [discriminate|].
  simpl in Hsplit. destruct (Ascii.eqb_spec c "."%char) as [->|Hne].
  - inversion Hsplit; subst. auto.
  - destruct (split_once rest) as [[b a]|]; [|discriminate].
    inversion Hsplit; subst. destruct (IH b after eq_refl) as [-> Hno].
    split; [reflexivity|]. simpl. rewrite Hno.
    destruct (Ascii.eqb_spec "."%char c); [congruence|reflexivity].
Qed.

Lemma split_once_none (s : string) :
  split_once s = None <-> has_char "."%char s = false.
Proof.
  induction s as [|c rest IH]; simpl; [tauto|].
  rewrite Ascii.eqb_sym. destruct (Ascii.eqb "."%char c); simpl.
  - split; discriminate.
  - destruct (split_once rest) as [[b a]|].
    + split; [discriminate|]. intros H. apply IH in H. discriminate.
    + split; [intros _; now apply IH|reflexivity].
Qed.

(** X19: the [section.option] of a [--get] query is cut at the first
    dot: the section never holds a dot, the option keeps any further dots,
    the two pieces and the dot make up the query again; and the cut fails
    exactly on a query without any dot. *)
Theorem split_once_first_dot (s : string) :
  (forall before after,
      split_once s = Some (before, after) ->
      s = (before ++ "." ++ after)%string /\ has_char "."%char before = false) /\
  (split_once s = None <-> has_char "."%char s = false).
Proof.
  split; [apply split_once_sound|apply split_once_none].
Qed.

Lemma split_once_first_dot_witness :
  "env.PATH.old"%string = ("env" ++ "." ++ "PATH.old")%string /\
  has_char "."%char "env" = false.
Proof.
  destruct (split_once_first_dot "env.PATH.old") as [Hcut _].
  apply Hcut. reflexivity.
Defined.

Lemma env_lookup_app (k : string) (a b : Environ) :
  env_lookup k (a ++ b) =
  match env_lookup k a with
  | Some v => Some v
  | None => env_lookup k b
  end.
Proof.
  induction a as [|[k' v'] a IH]; simpl; [reflexivity|].
  destruct (String.eqb k k'); [reflexivity|exact IH].
Qed.

Lemma env_lookup_absent (k : string) (env : Environ) :
  env_lookup k env = None ->
  existsb (fun kv' => String.eqb k (fst kv')) env = false.
Proof.
  induction env as [|[k' v'] env IH]; simpl; [reflexivity|].
  destruct (String.eqb k k'); [discriminate|exact IH].
Qed.

(** X20: in the environment handed to every process, a variable set by
    the configuration has the configured value, and any other variable has
    the value it has in the runner's own environment. *)
Theorem env_update_lookup (k : string) (old new : Environ) :
  env_lookup k (env_update old new) =
  match env_lookup k new with
  | Some v => Some v
  | None => env_lookup k old
  end.
Proof.
  unfold env_update. rewrite env_lookup_app.
  destruct (env_lookup k new) as [v|] eqn:Hnew; [reflexivity|].
  apply env_lookup_absent in Hnew.
  induction old as [|[k' v'] old IH]; simpl; [reflexivity|].
  destruct (String.eqb_spec k k') as [<-|Hne].
  - rewrite Hnew. simpl. now rewrite String.eqb_refl.
  - destruct (negb _); simpl; [|exact IH].
    destruct (String.eqb_spec k k'); [contradiction|exact IH].
Qed.

Lemma split_commas_nonempty (s : string) : split_commas s <> [].
Proof.
  destruct s as [|c rest]; simpl; [discriminate|].
  destruct (Ascii.eqb c ","%char); [discriminate|].
  destruct (split_commas rest); discriminate.
Qed.

Lemma split_commas_join (s : string) : join_commas (split_commas s) = s.
Proof.
  induction s as [|c rest IH]; [reflexivity|]. simpl.
  pose proof (split_commas_nonempty rest) as Hne.
  destruct (Ascii.eqb_spec c ","%char) as [->|Hc].
  - destruct (split_commas rest) as [|w ws]; [contradiction|].
    change (join_commas (EmptyString :: w :: ws))
      with ("" ++ "," ++ join_commas (w :: ws))%string.
    rewrite IH. reflexivity.
  - destruct (split_commas rest) as [|w ws]; [contradiction|].
    destruct ws as [|w' ws].
    + simpl in *. now rewrite IH.
    + change (join_commas (String c w :: w' :: ws))
        with (String c (w ++ "," ++ join_commas (w' :: ws)))%string.
      change (join_commas (w :: w' :: ws))
        with (w ++ "," ++ join_commas (w' :: ws))%string in IH.
      now rewrite IH.
Qed.

Lemma split_commas_fields (s : string) :
  forall f, In f (split_commas s) -> has_char ","%char f = false.
Proof.
  induction s as [|c rest IH]; simpl.
  - intros f [<-|[]]. reflexivity.
  - destruct (Ascii.eqb_spec c ","%char) as [->|Hc].
    + intros f [<-|Hf]; [reflexivity|now apply IH].
    + destruct (split_commas rest) as [|w ws].
      * intros f [<-|[]]. simpl.
        destruct (Ascii.eqb_spec ","%char c); [congruence|reflexivity].
      * intros f [<-|Hf].
        -- simpl. rewrite (IH w (or_introl eq_refl)).
           destruct (Ascii.eqb_spec ","%char c); [congruence|reflexivity].
        -- apply IH. now right.
Qed.

(** X21: [depends_on] is cut at every comma and at commas only: no field
    holds a comma, joining the fields with commas gives the value back, and
    there is always at least one field (an empty value gives the one empty
    name, not an empty list). *)
Theorem split_commas_round_trip (s : string) :
  join_commas (split_commas s) = s /\
  split_commas s <> [] /\
  (forall f, In f (split_commas s) -> has_char ","%char f = false) /\
  split_commas EmptyString = [EmptyString].
Proof.
  split; [apply split_commas_join|]. split; [apply split_commas_nonempty|].
  split; [apply split_commas_fields|reflexivity].
Qed.

Lemma has_char_lstrip (c : ascii) (s : string) :
  has_char c s = false -> has_char c (lstrip s) = false.
Proof.
  induction s as [|x rest IH]; simpl; [auto|].
  intros Hno. apply orb_false_iff in Hno. destruct Hno as [Hx Hrest].
  destruct (is_space x); [auto|]. simpl. now rewrite Hx, Hrest.
Qed.

Lemma has_char_rstrip (c : ascii) (s : string) :
  has_char c s = false -> has_char c (rstrip s) = false.
Proof.
  induction s as [|x rest IH]; simpl; [auto|].
  intros Hno. apply orb_false_iff in Hno. destruct Hno as [Hx Hrest].
  specialize (IH Hrest). destruct (rstrip rest) as [|y r].
  - destruct (is_space x); simpl; [reflexivity|]. now rewrite Hx.
  - simpl in *. now rewrite Hx, IH.
Qed.

Lemma lstrip_first (s : string) (c : ascii) :
  first_char (lstrip s) = Some c -> is_space c = false.
Proof.
  induction s as [|x rest IH]; simpl; [discriminate|].
  destruct (is_space x) eqn:Hx; [exact IH|].
  simpl. intros Heq. inversion Heq; subst. exact Hx.
Qed.

Lemma rstrip_first (s : string) (c : ascii) :
  (forall x, first_char s = Some x -> is_space x = false) ->
  first_char (rstrip s) = Some c -> is_space c = false.
Proof.
  destruct s as [|x rest]; simpl; [discriminate|].
  intros Hfirst. specialize (Hfirst x eq_refl).
  destruct (rstrip rest) as [|y r].
  - rewrite Hfirst. simpl. intros Heq. inversion Heq; subst. exact Hfirst.
  - simpl. intros Heq. inversion Heq; subst. exact Hfirst.
Qed.

Lemma rstrip_last (s : string) (c : ascii) :
  last_char (rstrip s) = Some c -> is_space c = false.
Proof.
  induction s as [|x rest IH]; simpl; [discriminate|].
  destruct (rstrip rest) as [|y r] eqn:Hr.
  - destruct (is_space x) eqn:Hx; simpl; [discriminate|].
    intros Heq. inversion Heq; subst. exact Hx.
  - intros Hlast. apply IH. exact Hlast.
Qed.

Lemma strip_spaceless (s : string) : spaceless_ends (strip s).
Proof.
  unfold strip. split.
  - intros c. apply rstrip_first. apply lstrip_first.
  - intros c. apply rstrip_last.
Qed.

Context {W : Type} {world : World W}.

(** X22: every file of the directory but the halt task becomes a task,
    in listing order; a task without [depends_on] has no dependency, and the
    dependency names of the others hold no comma and neither start nor end
    with white space. *)
Theorem discover_task_configs (config : Config) (dirname : string) (w : W) :
  let listed := list_directory dirname w in
  map tc_name (discover config dirname w) =
    (if mem (halt_task config) listed
     then remove_first (halt_task config) listed else listed) /\
  forall tc,
    In tc (discover config dirname w) ->
    (get config (tc_name tc) "depends_on" = None -> tc_deps tc = []) /\
    (forall d, In d (tc_deps tc) ->
               has_char ","%char d = false /\ spaceless_ends d).
Proof.
  intros listed. unfold discover. fold listed.
  set (tasks := if mem (halt_task config) listed
                then remove_first (halt_task config) listed else listed).
  split.
  - rewrite map_map. induction tasks as [|t l IH]; simpl; [reflexivity|].
    rewrite IH. destruct (get config t "depends_on"); reflexivity.
  - intros tc Htc. apply in_map_iff in Htc. destruct Htc as (t & <- & _).
    destruct (get config t "depends_on") as [deps|] eqn:Hget; simpl; rewrite Hget.
    + split; [discriminate|]. intros d Hd.
      apply in_map_iff in Hd. destruct Hd as (f & <- & Hf). split.
      * unfold strip. apply has_char_rstrip, has_char_lstrip.
        now apply (split_commas_fields deps).
      * apply strip_spaceless.
    + split; [reflexivity|]. intros d [].
Qed.

Lemma append_cancel (a x y : string) : (a ++ x = a ++ y)%string -> x = y.
Proof.
  induction a as [|c a IH]; simpl; intros Heq; [exact Heq|].
  inversion Heq. now apply IH.
Qed.

(** X23: two different file names (names that do not start with a
    slash) are run at different paths; so a task that is not the halt task
    is never run at the path of the halt task. *)
Theorem task_paths_distinct (dirname t1 t2 : string) :
  starts_with_slash t1 = false ->
  starts_with_slash t2 = false ->
  t1 <> t2 ->
  path_join dirname t1 <> path_join dirname t2.
Proof.
  unfold path_join. intros -> -> Hne Heq. apply Hne.
  destruct (String.eqb dirname EmptyString || ends_with_slash dirname)%bool.
  - now apply append_cancel in Heq.
  - apply append_cancel in Heq. now inversion Heq.
Qed.

Lemma task_paths_distinct_witness :
  path_join "tasks" "a" <> path_join "tasks" "halt".
Proof.
  apply task_paths_distinct; [reflexivity|reflexivity|discriminate].
Defined.

End DataFacts.

(** ** The command line *)

Section MainFacts.

Context {W : Type} {world : World W}.
Variables (blank : Config) (load_config : string -> Config -> option Config)
          (path_exists : string -> W -> bool).


(** X24: a [--get] query is answered without touching the task
    directory, whatever else is on the command line: with a dot in it, the
    value of [section.option] is printed when there is one, nothing is
    printed when there is none, and [main] exits with status 0 in both
    cases; without a dot, the unpacking raises.  No process is run and
    nothing is listed. *)
Theorem main_get_is_read_only (fuel : nat) (args : Args) (config : Config)
        (s : St W) :
  configured blank load_config args = Some config ->
  truthy (a_get args) = true ->
  (has_char "."%char (text (a_get args)) = false ->
   main fuel blank load_config path_exists args s = Some (UnpackError, [], s)) /\
  (has_char "."%char (text (a_get args)) = true ->
   exists section key,
     text (a_get args) = (section ++ "." ++ key)%string /\
     has_char "."%char section = false /\
     main fuel blank load_config path_exists args s =
     Some (Exited 0,
           match get config section key with
           | Some v => [v]
           | None => []
           end, s)).
Proof.
  intros Hconf Hget. unfold main. rewrite Hconf, Hget. split.
  - intros Hdot. apply split_once_none in Hdot. now rewrite Hdot.
  - intros Hdot. destruct (split_once (text (a_get args))) as [[section key]|] eqn:Hcut.
    + destruct (split_once_sound _ _ _ Hcut) as [Htext Hno].
      exists section, key. split; [exact Htext|]. split; [exact Hno|].
      destruct (get config section key); reflexivity.
    + apply split_once_none in Hcut. congruence.
Qed.


End MainFacts.

(** ** The sample directory, once more *)

Section SampleRecords.

Import Supervisor.

Ltac evaluated := eexists; vm_compute; reflexivity.

Lemma attempt_exact_record_witness :
  exists s' before after,
    @attempt Host (sample_world 0 0 1) (sample_config 3 None) "tasks" [] 1 "b" fresh
    = Some (RETRY, s') /\
    snd s' = snd fresh
             ++ attempt_entries (sample_config 3 None) "tasks" 1 "b" before RETRY after.
Proof.
  assert (Hrun : exists s',
             @attempt Host (sample_world 0 0 1) (sample_config 3 None) "tasks" [] 1 "b"
                      fresh = Some (RETRY, s')) by evaluated.
  destruct Hrun as [s' Hrun].
  destruct (@attempt_exact_record Host (sample_world 0 0 1) (sample_config 3 None)
              "tasks" [] 1 "b" fresh RETRY s' Hrun) as (before & after & Hlog).
  exists s', before, after. split; assumption.
Defined.

Lemma attempt_counter_bounds_witness :
  exists s' new,
    @process_taskdir Host (sample_world 0 0 1) (sample_config 3 None) "tasks" fresh
    = Some (RFalse, s') /\
    snd s' = snd fresh ++ new /\
    (forall n, In n (try_nums new) -> 1 <= n <= 3) /\
    nondecreasing (try_nums new).
Proof.
  assert (Hrun : exists s',
             @process_taskdir Host (sample_world 0 0 1) (sample_config 3 None) "tasks"
                              fresh = Some (RFalse, s')) by evaluated.
  destruct Hrun as [s' Hrun].
  destruct (@attempt_counter_bounds Host (sample_world 0 0 1) (sample_config 3 None)
              "tasks" fresh RFalse s' Hrun) as (new & Hlog & Hin & Hnd).
  exists s', new. split; [exact Hrun|]. split; [exact Hlog|]. split; [exact Hin|exact Hnd].
Defined.

Lemma run_work_bound_witness :
  exists s' order new,
    @process_taskdir Host (sample_world 0 0 1) (sample_config 3 None) "tasks" fresh
    = Some (RFalse, s') /\
    @resolved_order Host (sample_world 0 0 1) (sample_config 3 None) "tasks" (fst fresh)
    = Some order /\
    snd s' = snd fresh ++ new /\
    (List.length (ran Main new) <= 3 * List.length order)%nat /\
    (List.length (slept new) <= 3)%nat.
Proof.
  assert (Hrun : exists s',
             @process_taskdir Host (sample_world 0 0 1) (sample_config 3 None) "tasks"
                              fresh = Some (RFalse, s')) by evaluated.
  destruct Hrun as [s' Hrun].
  destruct (@run_work_bound Host (sample_world 0 0 1) (sample_config 3 None)
              "tasks" fresh RFalse s' Hrun) as (order & new & Ho & Hlog & Hm & Hs).
  exists s', order, new.
  split; [exact Hrun|]. split; [exact Ho|]. split; [exact Hlog|]. split; [exact Hm|exact Hs].
Defined.

Lemma halt_only_on_false_witness :
  exists s' new,
    @process_taskdir Host (sample_world 0 0 1) (sample_config 3 None) "tasks" fresh
    = Some (RFalse, s') /\
    snd s' = snd fresh ++ new /\
    exists front n t rh,
      new = front ++ [halt_run (sample_config 3 None) "tasks" n t rh] /\
      ran HaltCmd front = [].
Proof.
  assert (Hrun : exists s',
             @process_taskdir Host (sample_world 0 0 1) (sample_config 3 None) "tasks"
                              fresh = Some (RFalse, s')) by evaluated.
  destruct Hrun as [s' Hrun].
  destruct (@halt_only_on_false Host (sample_world 0 0 1) (sample_config 3 None)
              "tasks" fresh RFalse s' Hrun) as (new & Hlog & Hfalse & _).
  exists s', new. split; [exact Hrun|]. split; [exact Hlog|]. now apply Hfalse.
Defined.

Lemma none_ends_with_sleep_witness :
  exists s' order front before t,
    @process_taskdir Host (sample_world 0 0 1) (sample_config 1 (Some 2)) "tasks" fresh
    = Some (RNone, s') /\
    @resolved_order Host (sample_world 0 0 1) (sample_config 1 (Some 2)) "tasks"
                    (fst fresh) = Some order /\
    In t order /\
    snd s' = snd fresh ++ front
             ++ [Slept (ts_sleep_time (task_settings (sample_config 1 (Some 2)) t))] /\
    ran Main front
    = before ++ [main_run (sample_config 1 (Some 2)) "tasks"
                          (max_tries (sample_config 1 (Some 2))) t RETRY] /\
    max_tries (sample_config 1 (Some 2))
    <> ts_max_tries (task_settings (sample_config 1 (Some 2)) t).
Proof.
  assert (Hrun : exists s',
             @process_taskdir Host (sample_world 0 0 1) (sample_config 1 (Some 2))
                              "tasks" fresh = Some (RNone, s')) by evaluated.
  destruct Hrun as [s' Hrun].
  destruct (@none_ends_with_sleep Host (sample_world 0 0 1) (sample_config 1 (Some 2))
              "tasks" fresh s') as (order & front & before & t & Ho & Ht & Hlog & Hm & Hthr).
  - simpl. lia.
  - exact Hrun.
  - exists s', order, front, before, t.
    split; [exact Hrun|]. split; [exact Ho|]. split; [exact Ht|].
    split; [exact Hlog|]. split; [exact Hm|exact Hthr].
Defined.

Lemma true_means_full_pass_witness :
  exists s' order front n last_pass,
    @process_taskdir Host (sample_world 0 0 0) (sample_config 3 None) "tasks" fresh
    = Some (RTrue, s') /\
    @resolved_order Host (sample_world 0 0 0) (sample_config 3 None) "tasks" (fst fresh)
    = Some order /\
    1 <= n <= 3 /\
    snd s' = snd fresh ++ front ++ last_pass /\
    ran Main last_pass = oks (sample_config 3 None) "tasks" n order /\
    slept last_pass = [].
Proof.
  assert (Hrun : exists s',
             @process_taskdir Host (sample_world 0 0 0) (sample_config 3 None) "tasks"
                              fresh = Some (RTrue, s')) by evaluated.
  destruct Hrun as [s' Hrun].
  destruct (@true_means_full_pass Host (sample_world 0 0 0) (sample_config 3 None)
              "tasks" fresh s' Hrun)
    as (order & front & n & last_pass & Ho & Hn & Hlog & Hm & Hs).
  exists s', order, front, n, last_pass.
  split; [exact Hrun|]. split; [exact Ho|]. split; [exact Hn|].
  split; [exact Hlog|]. split; [exact Hm|exact Hs].
Defined.

Lemma no_tries_no_work_witness :
  @process_taskdir Host (sample_world 0 0 0) (sample_config 0 None) "tasks" fresh
  = Some (RNone, fresh) /\
  forall fuel times,
    past_limit times 1 = false ->
    @runner Host (sample_world 0 0 0) (S fuel) (sample_config 0 None) "tasks" times fresh
    = Some (SysExit 1, (fst fresh, snd fresh ++ [Iteration 1])).
Proof.
  apply (@no_tries_no_work Host (sample_world 0 0 0) (sample_config 0 None) "tasks"
           ["a"; "b"; "c"]%string fresh).
  - simpl. lia.
  - reflexivity.
Defined.

Lemma empty_directory_succeeds_witness :
  @process_taskdir Host (sample_world 0 0 0) (sample_config 3 None) "nowhere" fresh
  = Some (RTrue, fresh).
Proof.
  apply (@empty_directory_succeeds Host (sample_world 0 0 0) (sample_config 3 None)
           "nowhere" fresh).
  - simpl. lia.
  - left. reflexivity.
Defined.

Lemma runner_positive_count_witness :
  exists s' new k,
    @runner Host (sample_world 0 0 0) 10 (sample_config 3 None) "tasks" (Some 3) fresh
    = Some (Finished, s') /\
    snd s' = snd fresh ++ new /\
    Z.of_nat k <= 3 /\
    iterations new = map Iteration (range 1 (1 + Z.of_nat k)).
Proof.
  assert (Hrun : exists s',
             @runner Host (sample_world 0 0 0) 10 (sample_config 3 None) "tasks"
                     (Some 3) fresh = Some (Finished, s')) by evaluated.
  destruct Hrun as [s' Hrun].
  destruct (@runner_positive_count Host (sample_world 0 0 0) (sample_config 3 None)
              "tasks" 3 10 fresh Finished s') as (new & k & Hlog & Hk & Hit).
  - lia.
  - exact Hrun.
  - exists s', new, k.
    split; [exact Hrun|]. split; [exact Hlog|]. split; [exact Hk|exact Hit].
Defined.

Lemma runner_negative_count_witness :
  @runner Host (sample_world 0 0 0) 1 (sample_config 3 None) "tasks" (Some (-1)) fresh
  = Some (Finished, fresh).
Proof.
  apply (@runner_negative_count Host (sample_world 0 0 0) (sample_config 3 None)
           "tasks" (-1) 0 fresh).
  lia.
Defined.

Lemma runner_counted_success_witness :
  exists s' new,
    @runner Host (sample_world 0 0 0) 3 (sample_config 3 None) "tasks" (Some 2) fresh
    = Some (Finished, s') /\
    snd s' = snd fresh ++ new /\
    List.length (iterations new) = Z.to_nat 2.
Proof.
  apply (@runner_counted_success Host (sample_world 0 0 0) (sample_config 3 None)
           "tasks" 2 3 fresh).
  - lia.
  - simpl. lia.
  - apply (instant_run_ok 1 (sample_table 0 0 0) sample_files []
             (sample_config 3 None) "tasks" ["a"; "b"; "c"]%string).
    + simpl. lia.
    + intros h. reflexivity.
    + intros t [<-|[<-|[<-|[]]]]; reflexivity.
Defined.

Lemma runner_exit_is_failure_witness :
  exists s',
    @runner Host (sample_world 0 0 2) 5 (sample_config 3 None) "tasks" (Some 4) fresh
    = Some (SysExit 1, s') /\
    1 = 1 /\
    exists s0 k v,
      @process_taskdir Host (sample_world 0 0 2) (sample_config 3 None) "tasks"
                       (fst s0, snd s0 ++ [Iteration k]) = Some (v, s') /\
      ret_truthy v = false.
Proof.
  assert (Hrun : exists s',
             @runner Host (sample_world 0 0 2) 5 (sample_config 3 None) "tasks"
                     (Some 4) fresh = Some (SysExit 1, s')) by evaluated.
  destruct Hrun as [s' Hrun]. exists s'. split; [exact Hrun|].
  exact (@runner_exit_is_failure Host (sample_world 0 0 2) (sample_config 3 None)
           "tasks" (Some 4) 5 fresh 1 s' Hrun).
Defined.

Lemma runner_without_count_witness :
  exists r s',
    @runner Host (sample_world 0 0 0) 2 (sample_config 3 None) "tasks" None fresh
    = Some (r, s') /\
    r <> Finished.
Proof.
  assert (Hrun : exists s',
             @runner Host (sample_world 0 0 0) 2 (sample_config 3 None) "tasks"
                     None fresh = Some (StillLooping, s')) by evaluated.
  destruct Hrun as [s' Hrun]. exists StillLooping, s'. split; [exact Hrun|].
  exact (@runner_without_count Host (sample_world 0 0 0) (sample_config 3 None)
           "tasks" 2 fresh StillLooping s' Hrun).
Defined.

Lemma split_commas_round_trip_witness :
  join_commas (split_commas "a, b") = "a, b"%string /\
  has_char ","%char " b" = false.
Proof.
  destruct (split_commas_round_trip "a, b") as (Hjoin & _ & Hfields & _).
  split; [exact Hjoin|]. apply Hfields. right. left. reflexivity.
Defined.

Lemma discover_task_configs_witness :
  map tc_name (@discover Host (sample_world 0 0 0) (sample_config 3 None) "tasks" boot)
  = ["a"; "b"; "c"]%string /\
  tc_deps (mkTaskConfig "a" []) = [].
Proof.
  destruct (@discover_task_configs Host (sample_world 0 0 0) (sample_config 3 None)
              "tasks" boot) as [Hnames Hdeps].
  split; [exact Hnames|].
  destruct (Hdeps (mkTaskConfig "a" [])) as [Hnone _].
  - left. reflexivity.
  - apply Hnone. reflexivity.
Defined.

Lemma main_get_is_read_only_witness :
  exists section key,
    "env.PATH"%string = (section ++ "." ++ key)%string /\
    has_char "."%char section = false /\
    @main Host (sample_world 0 0 0) 5 sample_blank sample_load sample_exists
          (mkArgs None (Some "env.PATH"%string) (Some 2) (Some "tasks"%string)) fresh
    = Some (Exited 0,
            match get sample_blank section key with
            | Some v => [v]
            | None => []
            end, fresh).
Proof.
  destruct (@main_get_is_read_only Host (sample_world 0 0 0) sample_blank sample_load
              sample_exists 5
              (mkArgs None (Some "env.PATH"%string) (Some 2) (Some "tasks"%string))
              sample_blank fresh) as [_ Hdot].
  - reflexivity.
  - reflexivity.
  - apply Hdot. reflexivity.
Defined.


End SampleRecords.
